(** * polymcp_toolkit: the tool registry and its three endpoints

    A shallow embedding of [addon/polymcp_toolkit.py]: the signature
    introspector ([_extract_param_info], [_extract_docstring]), the registry
    built by [expose_tools], and the handlers [health], [list_tools] and
    [invoke_tool].

    Python side of the model.
    - Values are finite trees ([pyval]); floats are left out.  A value the
      JSON encoder refuses (a set, a bytes object, an instance of a user
      class, ...) is a [PObject] that carries its class name and its
      rendering, the one [str] and [repr] give.
    - Text is a [string] whose characters are code points below 256.
    - A dict whose order is observable (a request body, a descriptor, a
      response payload) is an association list in insertion order, written
      through [dict_set]; [tool_map], of which the code only uses membership,
      lookup and size, is a [gmap].
    - An exception is its class name, its message and the most specific of the
      two classes the handlers of [invoke_tool] test for.
    - An operation is a function defined with [def]: its name, the text
      [inspect.getdoc] reports for it, its signature and its body, a total
      function from the bound arguments and the state of the host
      application to an outcome and a new state.
    - The introspector comes twice: [_extract_param_info] is the dict it
      returns, [_extract_param_info_outcome] adds the exceptions that
      [json.dumps] and [str] can raise on a default.
    - The registry comes twice as well: with values ([expose_tools]), and
      with the mutable default objects it shares with the tools, kept in a
      store ([s_expose_tools]). *)

From Stdlib Require Import Ascii String ZArith Bool Lia.
From stdpp Require Import gmap strings list fin_maps pretty.

Local Open Scope Z_scope.

(** ** Characters and text *)

Definition LF : ascii := "010"%char.
Definition sq : ascii := "039"%char.
Definition dq : ascii := "034"%char.
Definition backslash : ascii := "092"%char.

(** The separator of [doc.split("\n\n")]. *)
Definition blank_line : string := String LF (String LF EmptyString).

Definition str1 (c : ascii) : string := String c EmptyString.

(** [sep.join(parts)] *)
Fixpoint join (sep : string) (parts : list string) : string :=
  match parts with
  | [] => ""
  | [p] => p
  | p :: rest => p +:+ sep +:+ join sep rest
  end.

(** [str.isspace] on one code point below 256: the separators 9..13 and
    28..32, NEL (133) and the no-break space (160). *)
Definition isspace (c : ascii) : bool :=
  let n := nat_of_ascii c in
  ((9 <=? n) && (n <=? 13) || (28 <=? n) && (n <=? 32)
   || (n =? 133) || (n =? 160))%nat.

(** [s.lstrip()] *)
Fixpoint lstrip (s : string) : string :=
  match s with
  | EmptyString => EmptyString
  | String c s' => if isspace c then lstrip s' else s
  end.

(** [s.rstrip()]: a character is dropped when it is a space and everything
    after it has been dropped. *)
Fixpoint rstrip (s : string) : string :=
  match s with
  | EmptyString => EmptyString
  | String c s' =>
      match rstrip s' with
      | EmptyString => if isspace c then EmptyString else str1 c
      | r => String c r
      end
  end.

(** [s.strip()] *)
Definition strip (s : string) : string := rstrip (lstrip s).

(** [s.split(sep)] for a non-empty [sep]: the text is scanned from the left;
    at an occurrence of [sep] the current piece is closed and the rest of the
    occurrence ([skip] characters) is passed over.  [cur] is the current
    piece, last character first. *)
Fixpoint split_go (sep : string) (skip : nat) (cur : list ascii) (s : string)
  : list string :=
  match s with
  | EmptyString => [string_of_list_ascii (rev cur)]
  | String c s' =>
      match skip with
      | S k => split_go sep k cur s'
      | O =>
          if String.prefix sep s
          then string_of_list_ascii (rev cur)
               :: split_go sep (String.length sep - 1) [] s'
          else split_go sep O (c :: cur) s'
      end
  end.

Definition split (sep s : string) : list string := split_go sep 0 [] s.

(** ** Python values *)

#[local] Set Warnings "-register-all".

Inductive pyval : Type :=
| PNone
| PBool (b : bool)
| PInt (n : Z)
| PStr (s : string)
| PList (xs : list pyval)
| PTuple (xs : list pyval)
| PDict (kvs : list (string * pyval))
| PObject (cls : string) (rendering : string).

(** A dict in insertion order. *)
Abbreviation pydict := (list (string * pyval)).

(** [key in d] *)
Definition dict_mem (key : string) (d : pydict) : bool :=
  existsb (String.eqb key) (map fst d).

(** [d.get(key)] *)
Fixpoint dict_get (key : string) (d : pydict) : option pyval :=
  match d with
  | [] => None
  | (k, v) :: rest => if String.eqb key k then Some v else dict_get key rest
  end.

(** [d[key] = v]: an existing key keeps its place, a new one goes last. *)
Fixpoint dict_set (key : string) (v : pyval) (d : pydict) : pydict :=
  match d with
  | [] => [(key, v)]
  | (k, w) :: rest =>
      if String.eqb key k then (k, v) :: rest else (k, w) :: dict_set key v rest
  end.

(** [list(d.keys())] *)
Definition dict_keys (d : pydict) : list string := map fst d.

Definition str_list (names : list string) : pyval := PList (map PStr names).

(** Whether the JSON encoder knows every value in [v]; [json.dumps(v)]
    raises [TypeError] otherwise.  (Its other failures, on an integer without
    decimal text and on nesting beyond the recursion limit, are in
    [cpython_dumps] below.) *)
Fixpoint json_serializable (v : pyval) : bool :=
  match v with
  | PNone | PBool _ | PInt _ | PStr _ => true
  | PList xs | PTuple xs => forallb json_serializable xs
  | PDict kvs => forallb (fun kv => json_serializable (snd kv)) kvs
  | PObject _ _ => false
  end.

(** *** [repr] and [str] *)

Definition hex_digit (n : nat) : ascii :=
  ascii_of_nat (if (n <? 10)%nat then 48 + n else 87 + n)%nat.

(** One character of the [repr] of a string quoted with [quote]. *)
Definition repr_char (quote c : ascii) : string :=
  let n := nat_of_ascii c in
  if Ascii.eqb c backslash then String backslash (str1 backslash)
  else if Ascii.eqb c quote then String backslash (str1 quote)
  else if (n =? 9)%nat then String backslash "t"
  else if (n =? 10)%nat then String backslash "n"
  else if (n =? 13)%nat then String backslash "r"
  else if ((n <? 32) || (n =? 127) || (128 <=? n) && (n <=? 160) || (n =? 173))%nat
       then String backslash
              (String "x" (String (hex_digit (n / 16)) (str1 (hex_digit (n mod 16)))))
  else str1 c.

Definition has_char (c : ascii) (s : string) : bool :=
  existsb (Ascii.eqb c) (list_ascii_of_string s).

(** [repr(s)] for a string: double quotes only when the text has a single
    quote and no double quote. *)
Definition str_repr (s : string) : string :=
  let quote := if has_char sq s && negb (has_char dq s) then dq else sq in
  String quote
    (String.concat "" (map (repr_char quote) (list_ascii_of_string s))
     +:+ str1 quote).

(** [repr(v)] *)
Fixpoint py_repr (v : pyval) : string :=
  match v with
  | PNone => "None"
  | PBool true => "True"
  | PBool false => "False"
  | PInt n => pretty n
  | PStr s => str_repr s
  | PList xs => "[" +:+ join ", " (map py_repr xs) +:+ "]"
  | PTuple [x] => "(" +:+ py_repr x +:+ ",)"
  | PTuple xs => "(" +:+ join ", " (map py_repr xs) +:+ ")"
  | PDict kvs =>
      "{" +:+ join ", "
                (map (fun kv => str_repr (fst kv) +:+ ": " +:+ py_repr (snd kv)) kvs)
      +:+ "}"
  | PObject _ rendering => rendering
  end.

(** [str(v)] *)
Definition py_str (v : pyval) : string :=
  match v with
  | PStr s => s
  | _ => py_repr v
  end.

(** ** Exceptions and outcomes *)

(** Where the class of an exception sits with respect to the two handlers of
    [invoke_tool]: below [TypeError]; below [Exception] but not [TypeError];
    or below [BaseException] only ([SystemExit], [KeyboardInterrupt],
    [GeneratorExit], [asyncio.CancelledError]). *)
Inductive ExcBase : Type :=
| DerivesTypeError
| DerivesException
| DerivesBaseExceptionOnly.

Record PyExc : Type := mkExc {
  exc_type_name : string;      (* type(e).__name__ *)
  exc_message : string;        (* str(e) *)
  exc_base : ExcBase
}.

(** [isinstance(e, TypeError)] *)
Definition is_TypeError (e : PyExc) : bool :=
  match exc_base e with DerivesTypeError => true | _ => false end.

(** [isinstance(e, Exception)] *)
Definition is_Exception (e : PyExc) : bool :=
  match exc_base e with DerivesBaseExceptionOnly => false | _ => true end.

Definition TypeError (message : string) : PyExc :=
  mkExc "TypeError" message DerivesTypeError.

Inductive Outcome : Type :=
| Returned (v : pyval)
| Raised (e : PyExc).

(** ** Signatures *)

Inductive ParamKind : Type :=
| POSITIONAL_ONLY
| POSITIONAL_OR_KEYWORD
| VAR_POSITIONAL
| KEYWORD_ONLY
| VAR_KEYWORD.

(** What the introspector reads of an annotation: its [__name__] attribute
    when it has one, and [str(annotation)]. *)
Record Annotation : Type := mkAnn {
  ann_name : option string;
  ann_str : string
}.

(** An [inspect.Parameter]; [None] stands for [inspect.Parameter.empty]. *)
Record Param : Type := mkParam {
  p_name : string;
  p_kind : ParamKind;
  p_annotation : option Annotation;
  p_default : option pyval
}.

(** [x is inspect.Parameter.empty] *)
Definition is_empty {A : Type} (x : option A) : bool :=
  match x with None => true | Some _ => false end.

Definition accepts_keyword (p : Param) : bool :=
  match p_kind p with
  | POSITIONAL_OR_KEYWORD | KEYWORD_ONLY => true
  | _ => false
  end.

Definition is_positional (p : Param) : bool :=
  match p_kind p with
  | POSITIONAL_ONLY | POSITIONAL_OR_KEYWORD => true
  | _ => false
  end.

Definition is_kind (k : ParamKind) (p : Param) : bool :=
  match k, p_kind p with
  | POSITIONAL_ONLY, POSITIONAL_ONLY
  | POSITIONAL_OR_KEYWORD, POSITIONAL_OR_KEYWORD
  | VAR_POSITIONAL, VAR_POSITIONAL
  | KEYWORD_ONLY, KEYWORD_ONLY
  | VAR_KEYWORD, VAR_KEYWORD => true
  | _, _ => false
  end.

Definition has_name (name : string) (p : Param) : bool :=
  String.eqb name (p_name p).

(** [list(sig.parameters.keys())] *)
Definition param_names (sig : list Param) : list string := map p_name sig.

(** ** Calling [func( **params )]

    Every argument is passed by keyword.  The interpreter
    - gives each keyword to the positional-or-keyword or keyword-only
      parameter of that name, or collects it in the [**kwargs] parameter; with
      no such parameter the call fails: over positional-only parameters named
      by keyword if there are any, over the first unexpected keyword otherwise;
    - then fails over the positional parameters left without value or default,
    - then over the keyword-only ones;
    - and else fills in the defaults, an empty tuple for [*args], and runs the
      body.
    The failures are [TypeError]s; their texts are those of CPython 3.10 to
    3.12. *)

Definition quoted (name : string) : string := str1 sq +:+ name +:+ str1 sq.

(** ['a'], ['a' and 'b'], ['a', 'b', and 'c'] *)
Definition name_list (names : list string) : string :=
  match rev names with
  | [] => ""
  | [a] => quoted a
  | [b; a] => quoted a +:+ " and " +:+ quoted b
  | z :: front =>
      join ", " (map quoted (rev front)) +:+ ", and " +:+ quoted z
  end.

Definition plural (names : list string) : string :=
  match names with [_] => "" | _ => "s" end.

Definition missing_arguments (qualname kind : string) (names : list string)
  : PyExc :=
  TypeError (qualname +:+ "() missing " +:+ pretty (length names)
             +:+ " required " +:+ kind +:+ " argument" +:+ plural names
             +:+ ": " +:+ name_list names).

Definition unexpected_keyword (qualname key : string) : PyExc :=
  TypeError (qualname +:+ "() got an unexpected keyword argument "
             +:+ quoted key).

Definition positional_only_as_keyword (qualname : string) (names : list string)
  : PyExc :=
  TypeError (qualname
             +:+ "() got some positional-only arguments passed as keyword arguments: "
             +:+ quoted (join ", " names)).

Section Binding.
Variable qualname : string.
Variable sig : list Param.
Variable params : pydict.

(** The keywords no parameter takes by name. *)
Definition unmatched : pydict :=
  filter (fun kv => negb (existsb (fun p => accepts_keyword p && has_name (fst kv) p) sig))
         params.

Definition has_var_keyword : bool := existsb (is_kind VAR_KEYWORD) sig.

(** The positional-only parameters that a keyword names, in declaration
    order. *)
Definition positional_only_named : list string :=
  param_names
    (filter (fun p => is_kind POSITIONAL_ONLY p && dict_mem (p_name p) params)
            sig).

(** Whether the call leaves parameter [p] without a value. *)
Definition unfilled (p : Param) : bool :=
  negb (accepts_keyword p && dict_mem (p_name p) params)
  && is_empty (p_default p).

Definition missing (positional : bool) : list string :=
  param_names
    (filter (fun p => (if positional then is_positional p else is_kind KEYWORD_ONLY p)
                      && unfilled p) sig).

(** The value parameter [p] is bound to when the call goes through. *)
Definition bound_value (p : Param) : pyval :=
  match p_kind p with
  | VAR_POSITIONAL => PTuple []
  | VAR_KEYWORD => PDict unmatched
  | _ =>
      match (if accepts_keyword p then dict_get (p_name p) params else None) with
      | Some v => v
      | None => default PNone (p_default p)
      end
  end.

(** The local variables of the call, or the [TypeError] that stops it. *)
Definition bind : PyExc + pydict :=
  match unmatched, has_var_keyword with
  | (key, _) :: _, false =>
      match positional_only_named with
      | [] => inl (unexpected_keyword qualname key)
      | names => inl (positional_only_as_keyword qualname names)
      end
  | _, _ =>
      match missing true, missing false with
      | [], [] => inr (map (fun p => (p_name p, bound_value p)) sig)
      | [], names => inl (missing_arguments qualname "keyword-only" names)
      | names, _ => inl (missing_arguments qualname "positional" names)
      end
  end.
End Binding.

(** ** The toolkit *)

(** What a handler hands to the framework: a payload it returns, an
    [HTTPException] it raises, or an exception it lets through. *)
Inductive Response : Type :=
| Returns (payload : pyval)
| HTTPException (status_code : Z) (detail : pyval)
| Propagates (e : PyExc).

Section Toolkit.
(** The state of the host application, which the tools read and change. *)
Context {World : Type}.

Record Operation : Type := mkOp {
  __name__ : string;
  __qualname__ : string;
  getdoc : option string;            (* inspect.getdoc(func) *)
  signature : list Param;            (* inspect.signature(func).parameters *)
  body_of : pydict -> World -> Outcome * World
}.

(** [func( **params )] *)
Definition call (func : Operation) (params : pydict) (w : World)
  : Outcome * World :=
  match bind (__qualname__ func) (signature func) params with
  | inl e => (Raised e, w)
  | inr locals => body_of func locals w
  end.

(** The [info] dict of one parameter, as the loop stores it when
    [json.dumps] and [str] behave as [json_serializable] and [py_str] say
    (for the exceptions they can raise, see [param_info_outcome] below). *)
Definition param_info (param : Param) : pydict :=
  let info := [("required", PBool (is_empty (p_default param)))] in
  let info :=
    match p_annotation param with
    | Some annotation =>
        dict_set "type"
          (PStr (default (ann_str annotation) (ann_name annotation))) info
    | None => info
    end in
  match p_default param with
  | Some d =>
      if json_serializable d
      then dict_set "default" d info
      else dict_set "default" (PStr (py_str d)) info
  | None => info
  end.

(** One turn of the loop over the parameters: [params[name] = info]. *)
Definition add_param (params : pydict) (param : Param) : pydict :=
  dict_set (p_name param) (PDict (param_info param)) params.

Definition _extract_param_info (func : Operation) : pydict :=
  foldl add_param [] (signature func).

Definition _extract_docstring (func : Operation) : string :=
  match getdoc func with
  | None => ""
  | Some doc =>
      if String.eqb doc "" then ""
      else
        let paragraphs := split blank_line doc in
        strip (hd "" paragraphs)
  end.

Record App : Type := mkApp {
  title : string;
  version : string;
  tool_map : gmap string Operation;
  tool_info : list pyval
}.

(** The entry [expose_tools] appends to [tool_info] for [func]. *)
Definition descriptor (func : Operation) : pyval :=
  PDict [("name", PStr (__name__ func));
         ("description", PStr (_extract_docstring func));
         ("parameters", PDict (_extract_param_info func))].

(** One turn of the registration loop. *)
Definition register (reg : gmap string Operation * list pyval)
           (func : Operation) : gmap string Operation * list pyval :=
  (<[__name__ func := func]> (fst reg), snd reg ++ [descriptor func]).

Definition expose_tools (tools : list Operation)
           (title description version : string) : App :=
  let reg := foldl register (∅, []) tools in
  mkApp title version (fst reg) (snd reg).

(** *** Endpoints *)

Definition health (app : App) : pyval :=
  PDict [("status", PStr "ok");
         ("server", PStr (title app));
         ("version", PStr (version app));
         ("tools", PInt (Z.of_nat (size (tool_map app))))].

Definition list_tools (app : App) : pyval :=
  PDict [("tools", PList (tool_info app));
         ("count", PInt (Z.of_nat (length (tool_info app))))].

(** The [detail] of the 404. *)
Definition not_found (tool_name : string) : pyval :=
  PStr ("Tool '" +:+ tool_name
        +:+ "' not found. Use GET /mcp/list_tools to see available tools.").

(** The three payloads of [invoke_tool]. *)
Definition success_envelope (tool_name : string) (result : pyval) : pyval :=
  PDict [("success", PBool true);
         ("tool", PStr tool_name);
         ("result", result)].

Definition parameter_error (tool_name : string) (e : PyExc)
           (expected received : list string) : pyval :=
  PDict [("error", PStr (exc_message e));
         ("tool", PStr tool_name);
         ("expected_parameters", str_list expected);
         ("received_parameters", str_list received)].

Definition failure_envelope (tool_name : string) (e : PyExc) : pyval :=
  PDict [("success", PBool false);
         ("tool", PStr tool_name);
         ("error", PStr (exc_message e));
         ("error_type", PStr (exc_type_name e))].

(** [body or {}] *)
Definition body_or_empty (body : option pydict) : pydict :=
  match body with
  | Some ((_ :: _) as d) => d
  | _ => []
  end.

Definition invoke_tool (app : App) (tool_name : string)
           (body : option pydict) (w : World) : Response * World :=
  match tool_map app !! tool_name with
  | None => (HTTPException 404 (not_found tool_name), w)
  | Some func =>
      let params := body_or_empty body in
      match call func params w with
      | (Returned result, w') =>
          (Returns (success_envelope tool_name result), w')
      | (Raised e, w') =>
          if is_TypeError e then
            let expected := param_names (signature func) in
            (HTTPException 422
               (parameter_error tool_name e expected (dict_keys params)), w')
          else if is_Exception e then
            (Returns (failure_envelope tool_name e), w')
          else (Propagates e, w')
      end
  end.

End Toolkit.

Arguments Operation : clear implicits.
Arguments App : clear implicits.

(** ** Sample tools

    Tools of a host whose state plays no part ([World] is [unit]). *)

Definition plain (name : string) : Param :=
  mkParam name POSITIONAL_OR_KEYWORD None None.

(** [def add(a, b): return a + b], on integers. *)
Definition add : Operation unit :=
  mkOp "add" "add" None [plain "a"; plain "b"]
    (fun locals w =>
       match dict_get "a" locals, dict_get "b" locals with
       | Some (PInt a), Some (PInt b) => (Returned (PInt (a + b)), w)
       | _, _ => (Raised (TypeError "unsupported operand type(s) for +"), w)
       end).

(** [def divide(a, b): return a // b], on integers. *)
Definition divide : Operation unit :=
  mkOp "divide" "divide" None [plain "a"; plain "b"]
    (fun locals w =>
       match dict_get "a" locals, dict_get "b" locals with
       | Some (PInt a), Some (PInt b) =>
           if b =? 0
           then (Raised (mkExc "ZeroDivisionError"
                           "integer division or modulo by zero"
                           DerivesException), w)
           else (Returned (PInt (a / b)), w)
       | _, _ => (Raised (TypeError "unsupported operand type(s) for //"), w)
       end).

(** [def count_items(items): return len(items)] *)
Definition count_items : Operation unit :=
  mkOp "count_items" "count_items" None [plain "items"]
    (fun locals w =>
       match dict_get "items" locals with
       | Some (PList xs) | Some (PTuple xs) =>
           (Returned (PInt (Z.of_nat (length xs))), w)
       | Some (PDict kvs) => (Returned (PInt (Z.of_nat (length kvs))), w)
       | Some (PStr s) => (Returned (PInt (Z.of_nat (String.length s))), w)
       | Some (PInt _) =>
           (Raised (TypeError "object of type 'int' has no len()"), w)
       | _ => (Raised (TypeError "object has no len()"), w)
       end).

(** [def quit_host(): sys.exit(1)] *)
Definition quit_host : Operation unit :=
  mkOp "quit_host" "quit_host" None []
    (fun _ w => (Raised (mkExc "SystemExit" "1" DerivesBaseExceptionOnly), w)).

(** [def selected(): return {1, 2}] *)
Definition selected : Operation unit :=
  mkOp "selected" "selected" None []
    (fun _ w => (Returned (PObject "set" "{1, 2}"), w)).

(** Two functions called [render], from two modules of the host. *)
Definition render_still : Operation unit :=
  mkOp "render" "render" (Some "Render one frame.")
    [mkParam "frame" POSITIONAL_OR_KEYWORD (Some (mkAnn (Some "int") "<class 'int'>")) None]
    (fun _ w => (Returned (PStr "still"), w)).

Definition render_animation : Operation unit :=
  mkOp "render" "render" (Some "Render a range of frames.")
    [mkParam "start" POSITIONAL_OR_KEYWORD None (Some (PInt 1));
     mkParam "end" POSITIONAL_OR_KEYWORD None (Some (PInt 250))]
    (fun _ w => (Returned (PStr "animation"), w)).

Definition axes_param : Param :=
  mkParam "axes" POSITIONAL_OR_KEYWORD None (Some (PObject "set" "{0, 1}")).

(** [def scale(target, factor=2, pivot=None, axes={0, 1}, *rest, **opts)],
    with a two-paragraph docstring. *)
Definition scale : Operation unit :=
  mkOp "scale" "scale"
    (Some ("Scale an object." +:+ blank_line +:+ "Args:" +:+ str1 LF
           +:+ "    target: name of the object"))
    [mkParam "target" POSITIONAL_OR_KEYWORD (Some (mkAnn (Some "str") "<class 'str'>")) None;
     mkParam "factor" POSITIONAL_OR_KEYWORD None (Some (PInt 2));
     mkParam "pivot" POSITIONAL_OR_KEYWORD
       (Some (mkAnn None "typing.Optional[str]")) (Some PNone);
     axes_param;
     mkParam "rest" VAR_POSITIONAL None None;
     mkParam "opts" VAR_KEYWORD None None]
    (fun _ w => (Returned PNone, w)).

Definition sample_app : App unit :=
  expose_tools [add; divide; count_items; quit_host; selected]
               "MCP Server" "" "1.0.0".

(** The host registers both functions called [render]. *)
Definition render_app : App unit :=
  expose_tools [render_still; render_animation] "MCP Server" "" "1.0.0".

(** ** Notions used in the statements *)

Section Notions.
Context {World : Type}.

Definition named (name : string) (func : Operation World) : bool :=
  String.eqb name (__name__ func).

(** The last operation of the list that goes by [name]. *)
Definition last_named (name : string) (tools : list (Operation World))
  : option (Operation World) :=
  last (List.filter (named name) tools).

(** The four shapes of an invocation response: Success, ParameterError,
    RuntimeError, NotFound. *)
Inductive InvocationResponse (tool_name : string) : Response -> Prop :=
| IsSuccess result :
    InvocationResponse tool_name (Returns (success_envelope tool_name result))
| IsParameterError e expected received :
    InvocationResponse tool_name
      (HTTPException 422 (parameter_error tool_name e expected received))
| IsRuntimeError e :
    InvocationResponse tool_name (Returns (failure_envelope tool_name e))
| IsNotFound :
    InvocationResponse tool_name (HTTPException 404 (not_found tool_name)).
End Notions.

(** The text of [doc] up to its first blank-line boundary: all of it when it
    has none. *)
Fixpoint first_paragraph (doc : string) : string :=
  if String.prefix blank_line doc then EmptyString
  else match doc with
       | EmptyString => EmptyString
       | String c rest => String c (first_paragraph rest)
       end.

Definition all_space (s : string) : bool :=
  forallb isspace (list_ascii_of_string s).

(** [t] is [s] trimmed of surrounding whitespace: [s] is [t] between two runs
    of whitespace, and [t] neither starts nor ends with whitespace. *)
Definition trimmed_of (s t : string) : Prop :=
  (exists l r, s = l +:+ t +:+ r /\ all_space l = true /\ all_space r = true)
  /\ (forall c t', t = String c t' -> isspace c = false)
  /\ (forall t' c, t = t' +:+ str1 c -> isspace c = false).

(** The [name] of a published descriptor. *)
Definition descriptor_name (desc : pyval) : option pyval :=
  match desc with
  | PDict kvs => dict_get "name" kvs
  | _ => None
  end.

(** Whether [p] is [*args] or [**kwargs]. *)
Definition is_var (p : Param) : bool :=
  is_kind VAR_POSITIONAL p || is_kind VAR_KEYWORD p.

(** [def absolute(x, /): return abs(x)], on integers. *)
Definition absolute : Operation unit :=
  mkOp "absolute" "absolute" None
    [mkParam "x" POSITIONAL_ONLY None None]
    (fun locals w =>
       match dict_get "x" locals with
       | Some (PInt x) => (Returned (PInt (Z.abs x)), w)
       | _ => (Raised (TypeError "bad operand type for abs()"), w)
       end).

Definition tools_app : App unit :=
  expose_tools [add; absolute; scale] "MCP Server" "" "1.0.0".

Definition opts_param : Param := mkParam "opts" VAR_KEYWORD None None.

Definition factor_param : Param :=
  mkParam "factor" POSITIONAL_OR_KEYWORD None (Some (PInt 2)).

(** ** The startup script

    [scripts/auto_start_server.py].  Of Blender the callback reads whether
    [bpy.ops.mcp] has the operator [start_server], and runs it; what it logs
    and prints is kept as a list of events.  The texts are the bytes of the
    source file. *)

Inductive Level : Type := INFO | WARNING | ERROR.

Inductive Event : Type :=
| Logged (level : Level) (message : string)
| Printed (message : string).

Section Startup.
Context {World : Type}.

Record Blender : Type := mkBlender {
  has_start_server : bool;       (* hasattr(bpy.ops.mcp, "start_server") *)
  start_server : World -> Outcome * World    (* bpy.ops.mcp.start_server() *)
}.

Definition started : string :=
  "[xander-blender-mcp] MCP Server auto-started on http://localhost:8000".

Definition not_enabled : string :=
  "[xander-blender-mcp] MCP addon not enabled — skipping auto-start".

Definition failed (e : PyExc) : string :=
  "[xander-blender-mcp] Failed to auto-start MCP server: " +:+ exc_message e.

(** The timer callback: its outcome, what it logged and printed, and the
    host state it leaves. *)
Definition _try_start_mcp_server (bpy : Blender) (w : World)
  : Outcome * list Event * World :=
  if has_start_server bpy then
    match start_server bpy w with
    | (Returned _, w') =>
        (Returned PNone, [Logged INFO started; Printed started], w')
    | (Raised e, w') =>
        if is_Exception e
        then (Returned PNone, [Logged ERROR (failed e); Printed (failed e)], w')
        else (Raised e, [], w')
    end
  else (Returned PNone, [Logged WARNING not_enabled; Printed not_enabled], w).
End Startup.

Arguments Blender : clear implicits.

(** A Blender whose server cannot take its port. *)
Definition port_taken : Blender unit :=
  mkBlender true
    (fun w => (Raised (mkExc "OSError" "[Errno 98] Address already in use"
                             DerivesException), w)).

(** ** The introspector, with the failures of the builtins

    [_extract_param_info] above gives the dict the introspector returns.
    Whether it returns is up to two builtins it calls on each declared
    default, [json.dumps] and [str], which can raise.  Here they are inputs:
    [json.dumps] returns, raises a [TypeError] or a [ValueError] (the two
    classes the handler names), or raises something else; [str] returns a
    text or raises. *)

Inductive DumpsResult : Type :=
| Dumped
| Refused (e : PyExc)        (* a TypeError or a ValueError *)
| Failed (e : PyExc).        (* any other exception *)

Record Builtins : Type := mkBuiltins {
  json_dumps : pyval -> DumpsResult;
  str : pyval -> PyExc + string
}.

(** The [info] dict of one parameter, or the exception that escapes. *)
Definition param_info_outcome (py : Builtins) (param : Param)
  : PyExc + pydict :=
  let info := [("required", PBool (is_empty (p_default param)))] in
  let info :=
    match p_annotation param with
    | Some annotation =>
        dict_set "type"
          (PStr (default (ann_str annotation) (ann_name annotation))) info
    | None => info
    end in
  match p_default param with
  | Some d =>
      match json_dumps py d with
      | Dumped => inr (dict_set "default" d info)
      | Refused _ =>
          match str py d with
          | inr s => inr (dict_set "default" (PStr s) info)
          | inl e => inl e
          end
      | Failed e => inl e
      end
  | None => inr info
  end.

(** One turn of the loop over the parameters; an exception ends the loop. *)
Definition add_param_outcome (py : Builtins) (acc : PyExc + pydict)
           (param : Param) : PyExc + pydict :=
  match acc with
  | inl e => inl e
  | inr params =>
      match param_info_outcome py param with
      | inl e => inl e
      | inr info => inr (dict_set (p_name param) (PDict info) params)
      end
  end.

Section ToolkitOutcome.
Context {World : Type}.

Definition _extract_param_info_outcome (py : Builtins) (func : Operation World)
  : PyExc + pydict :=
  foldl (add_param_outcome py) (inr []) (signature func).

(** One turn of the registration loop of [expose_tools]: an exception of the
    introspector ends the construction. *)
Definition register_outcome (py : Builtins)
           (acc : PyExc + gmap string (Operation World) * list pyval)
           (func : Operation World)
  : PyExc + gmap string (Operation World) * list pyval :=
  match acc with
  | inl e => inl e
  | inr reg =>
      match _extract_param_info_outcome py func with
      | inl e => inl e
      | inr parameters =>
          inr (<[__name__ func := func]> (fst reg),
               snd reg ++ [PDict [("name", PStr (__name__ func));
                                  ("description", PStr (_extract_docstring func));
                                  ("parameters", PDict parameters)]])
      end
  end.

Definition expose_tools_outcome (py : Builtins) (tools : list (Operation World))
           (title description version : string) : PyExc + App World :=
  match foldl (register_outcome py) (inr (∅, [])) tools with
  | inl e => inl e
  | inr reg => inr (mkApp title version (fst reg) (snd reg))
  end.
End ToolkitOutcome.

(** *** The builtins of CPython 3.11

    What [json.dumps] and [str] do on the values of the model.  Two limits of
    the interpreter come in: an integer of more than [int_max_str_digits]
    decimal digits has no decimal text ([ValueError]; 0 lifts the limit,
    4300 is the default), and a value is encoded or rendered down to a depth
    that the call stack leaves ([RecursionError] below it).  The encoder
    takes one level per list, tuple or dict; [repr] takes one per value. *)

Record Limits : Type := mkLimits {
  int_max_str_digits : nat;    (* sys.get_int_max_str_digits() *)
  json_depth : nat;            (* levels left to the encoder *)
  repr_depth : nat             (* levels left to repr *)
}.

Definition ValueError (message : string) : PyExc :=
  mkExc "ValueError" message DerivesException.

Definition RecursionError (message : string) : PyExc :=
  mkExc "RecursionError" message DerivesException.

Definition int_too_long (lim : Limits) (n : Z) : bool :=
  match int_max_str_digits lim with
  | O => false
  | digits => 10 ^ Z.of_nat digits <=? Z.abs n
  end.

Definition digits_exceeded (lim : Limits) : PyExc :=
  ValueError ("Exceeds the limit (" +:+ pretty (int_max_str_digits lim)
              +:+ " digits) for integer string conversion; "
              +:+ "use sys.set_int_max_str_digits() to increase the limit").

(** The first result of a sequence that is not [Dumped]. *)
Fixpoint first_refusal (results : list DumpsResult) : DumpsResult :=
  match results with
  | [] => Dumped
  | Dumped :: rest => first_refusal rest
  | r :: _ => r
  end.

(** [json.dumps(v)] with [depth] levels left. *)
Fixpoint cpython_dumps (lim : Limits) (depth : nat) (v : pyval) {struct v}
  : DumpsResult :=
  match v with
  | PNone | PBool _ | PStr _ => Dumped
  | PInt n => if int_too_long lim n then Refused (digits_exceeded lim) else Dumped
  | PObject cls _ =>
      Refused (TypeError ("Object of type " +:+ cls
                          +:+ " is not JSON serializable"))
  | PList xs | PTuple xs =>
      match depth with
      | O => Failed (RecursionError
                       "maximum recursion depth exceeded while encoding a JSON object")
      | S k => first_refusal (map (cpython_dumps lim k) xs)
      end
  | PDict kvs =>
      match depth with
      | O => Failed (RecursionError
                       "maximum recursion depth exceeded while encoding a JSON object")
      | S k => first_refusal (map (fun kv => cpython_dumps lim k (snd kv)) kvs)
      end
  end.

(** The first exception of a sequence of renderings. *)
Fixpoint first_error (errors : list (option PyExc)) : option PyExc :=
  match errors with
  | [] => None
  | Some e :: _ => Some e
  | None :: rest => first_error rest
  end.

(** The exception [repr(v)] raises with [depth] levels left, if any. *)
Fixpoint cpython_repr_error (lim : Limits) (depth : nat) (v : pyval)
  : option PyExc :=
  match depth with
  | O => Some (RecursionError
                 "maximum recursion depth exceeded while getting the repr of an object")
  | S k =>
      match v with
      | PNone | PBool _ | PStr _ | PObject _ _ => None
      | PInt n => if int_too_long lim n then Some (digits_exceeded lim) else None
      | PList xs | PTuple xs => first_error (map (cpython_repr_error lim k) xs)
      | PDict kvs =>
          first_error
            (flat_map (fun kv => [cpython_repr_error lim k (PStr (fst kv));
                                  cpython_repr_error lim k (snd kv)]) kvs)
      end
  end.

(** [str(v)]: a string is its own text, anything else is rendered by
    [repr]. *)
Definition cpython_str (lim : Limits) (v : pyval) : PyExc + string :=
  match v with
  | PStr s => inr s
  | _ =>
      match cpython_repr_error lim (repr_depth lim) v with
      | Some e => inl e
      | None => inr (py_str v)
      end
  end.

Definition cpython (lim : Limits) : Builtins :=
  mkBuiltins (cpython_dumps lim (json_depth lim)) (cpython_str lim).

(** The default limit on digits; the depths are bounded by the default
    recursion limit, 1000. *)
Definition default_limits : Limits := mkLimits 4300 1000 1000.

(** The same with the limit on digits lifted
    ([sys.set_int_max_str_digits(0)]). *)
Definition unlimited_digits : Limits := mkLimits 0 1000 1000.

(** [def pad(text, width=10**5000)] *)
Definition pad : Operation unit :=
  mkOp "pad" "pad" None
    [plain "text";
     mkParam "width" POSITIONAL_OR_KEYWORD None (Some (PInt (10 ^ 5000)))]
    (fun _ w => (Returned PNone, w)).

(** Whether some integer in [v] has no decimal text. *)
Fixpoint has_long_int (lim : Limits) (v : pyval) : bool :=
  match v with
  | PInt n => int_too_long lim n
  | PList xs | PTuple xs => existsb (has_long_int lim) xs
  | PDict kvs => existsb (fun kv => has_long_int lim (snd kv)) kvs
  | _ => false
  end.

(** The builtins behave as [json_serializable] and [py_str] say whenever
    they let the introspector return. *)
Definition agrees (py : Builtins) : Prop :=
  forall d,
    (json_dumps py d = Dumped -> json_serializable d = true)
    /\ (forall e s, json_dumps py d = Refused e -> str py d = inr s ->
                    json_serializable d = false /\ s = py_str d).

(** ** The registry and the objects it shares with the tools

    [info["default"] = param.default] puts into the descriptor the default
    object of the function itself, the one a call binds to the parameter
    when the body leaves it out; and [list_tools] hands the framework the list
    [tool_info] itself, which is encoded after the handler has returned.  A
    default that is a mutable object (a list, a dict) is therefore shared
    between the descriptor and the tool.  Here the mutable objects live in a
    store, and the descriptors and the signatures refer to them. *)

(** What a dict entry or a local variable holds: a value nobody else can
    change, or the mutable object at an address of the store. *)
Inductive obj : Type :=
| Imm (v : pyval)
| Ref (l : nat).

(** The content of an object in store [σ]. *)
Definition deref (σ : gmap nat pyval) (o : obj) : pyval :=
  match o with
  | Imm v => v
  | Ref l => default PNone (σ !! l)
  end.

(** [d.get(key)] and [d[key] = v] for dicts of objects. *)
Fixpoint assoc_get {V : Type} (key : string) (d : list (string * V))
  : option V :=
  match d with
  | [] => None
  | (k, v) :: rest => if String.eqb key k then Some v else assoc_get key rest
  end.

Fixpoint assoc_set {V : Type} (key : string) (v : V) (d : list (string * V))
  : list (string * V) :=
  match d with
  | [] => [(key, v)]
  | (k, w) :: rest =>
      if String.eqb key k then (k, v) :: rest else (k, w) :: assoc_set key v rest
  end.

(** An [inspect.Parameter] whose default is an object. *)
Record SParam : Type := mkSParam {
  sp_name : string;
  sp_kind : ParamKind;
  sp_annotation : option Annotation;
  sp_default : option obj
}.

(** The parameter with the content its default has in store [σ]. *)
Definition snapshot (σ : gmap nat pyval) (p : SParam) : Param :=
  mkParam (sp_name p) (sp_kind p) (sp_annotation p) (deref σ <$> sp_default p).

(** A tool of a host whose state is the store; its body gets the objects
    bound to the parameters. *)
Record SOperation : Type := mkSOp {
  s_name : string;                       (* func.__name__ *)
  s_qualname : string;
  s_getdoc : option string;              (* inspect.getdoc(func) *)
  s_signature : list SParam;
  s_body : list (string * obj) -> gmap nat pyval -> Outcome * gmap nat pyval
}.

(** The object bound to parameter [p] in a call with body [params], [v]
    being the value bound: the default object itself when the default is
    mutable and the body does not name the parameter; else the value (what
    the body sent is a new object, which nobody else holds). *)
Definition live_local (params : pydict) (p : SParam) (v : pyval) : obj :=
  match sp_default p with
  | Some (Ref l) =>
      if accepts_keyword (snapshot ∅ p) && dict_mem (sp_name p) params
      then Imm v else Ref l
  | _ => Imm v
  end.

Definition live_locals (func : SOperation) (params locals : pydict)
  : list (string * obj) :=
  zip_with (fun p kv => (fst kv, live_local params p (snd kv)))
           (s_signature func) locals.

(** The operation as a call with body [params] in store [σ] sees it. *)
Definition as_operation (σ : gmap nat pyval) (params : pydict)
           (func : SOperation) : Operation (gmap nat pyval) :=
  mkOp (s_name func) (s_qualname func) (s_getdoc func)
       (map (snapshot σ) (s_signature func))
       (fun locals σ' => s_body func (live_locals func params locals) σ').

(** The [info] dict of one parameter, built in store [σ]: [json.dumps] is
    tried on the content the default has then, and the entry is the default
    object itself, or the text of that content. *)
Definition s_param_info (σ : gmap nat pyval) (param : SParam)
  : list (string * obj) :=
  let info := [("required", Imm (PBool (is_empty (sp_default param))))] in
  let info :=
    match sp_annotation param with
    | Some annotation =>
        assoc_set "type"
          (Imm (PStr (default (ann_str annotation) (ann_name annotation)))) info
    | None => info
    end in
  match sp_default param with
  | Some o =>
      if json_serializable (deref σ o)
      then assoc_set "default" o info
      else assoc_set "default" (Imm (PStr (py_str (deref σ o)))) info
  | None => info
  end.

Definition s_extract_param_info (σ : gmap nat pyval) (func : SOperation)
  : list (string * list (string * obj)) :=
  foldl (fun params param =>
           assoc_set (sp_name param) (s_param_info σ param) params)
        [] (s_signature func).

(** An entry of [tool_info]. *)
Record SDescriptor : Type := mkSDescriptor {
  sd_name : string;
  sd_description : string;
  sd_parameters : list (string * list (string * obj))
}.

Definition s_descriptor (σ : gmap nat pyval) (func : SOperation)
  : SDescriptor :=
  mkSDescriptor (s_name func) (_extract_docstring (as_operation σ [] func))
                (s_extract_param_info σ func).

(** What the framework encodes of a descriptor when the store is [σ]. *)
Definition render_info (σ : gmap nat pyval) (info : list (string * obj))
  : pydict :=
  map (fun entry => (fst entry, deref σ (snd entry))) info.

Definition render (σ : gmap nat pyval) (desc : SDescriptor) : pyval :=
  PDict [("name", PStr (sd_name desc));
         ("description", PStr (sd_description desc));
         ("parameters",
          PDict (map (fun entry => (fst entry, PDict (render_info σ (snd entry))))
                     (sd_parameters desc)))].

Record SApp : Type := mkSApp {
  s_title : string;
  s_version : string;
  s_tool_map : gmap string SOperation;
  s_tool_info : list SDescriptor
}.

Definition s_register (σ : gmap nat pyval)
           (reg : gmap string SOperation * list SDescriptor)
           (func : SOperation) : gmap string SOperation * list SDescriptor :=
  (<[s_name func := func]> (fst reg), snd reg ++ [s_descriptor σ func]).

(** [expose_tools], run in store [σ]. *)
Definition s_expose_tools (σ : gmap nat pyval) (tools : list SOperation)
           (title description version : string) : SApp :=
  let reg := foldl (s_register σ) (∅, []) tools in
  mkSApp title version (fst reg) (snd reg).

Definition s_health (app : SApp) : pyval :=
  PDict [("status", PStr "ok");
         ("server", PStr (s_title app));
         ("version", PStr (s_version app));
         ("tools", PInt (Z.of_nat (size (s_tool_map app))))].

(** The payload of [list_tools] as it is encoded when the store is [σ]. *)
Definition s_list_tools (σ : gmap nat pyval) (app : SApp) : pyval :=
  PDict [("tools", PList (map (render σ) (s_tool_info app)));
         ("count", PInt (Z.of_nat (length (s_tool_info app))))].

(** [invoke_tool] on the operations as this call sees them. *)
Definition s_invoke_tool (app : SApp) (tool_name : string)
           (body : option pydict) (σ : gmap nat pyval)
  : Response * gmap nat pyval :=
  invoke_tool
    (mkApp (s_title app) (s_version app)
           (as_operation σ (body_or_empty body) <$> s_tool_map app) [])
    tool_name body σ.

Inductive Request : Type :=
| GET_health
| GET_list_tools
| POST_invoke (tool_name : string) (body : option pydict).

(** One request: the response, and the registry and the store after it.
    No handler assigns to [tool_map] or [tool_info]; the store is what the
    invoked tool leaves. *)
Definition s_serve (req : Request) (st : SApp * gmap nat pyval)
  : Response * (SApp * gmap nat pyval) :=
  let (app, σ) := st in
  match req with
  | GET_health => (Returns (s_health app), (app, σ))
  | GET_list_tools => (Returns (s_list_tools σ app), (app, σ))
  | POST_invoke tool_name body =>
      let (resp, σ') := s_invoke_tool app tool_name body σ in
      (resp, (app, σ'))
  end.

Fixpoint s_serve_all (reqs : list Request) (st : SApp * gmap nat pyval)
  : list Response * (SApp * gmap nat pyval) :=
  match reqs with
  | [] => ([], st)
  | req :: rest =>
      let (resp, st') := s_serve req st in
      let (resps, st'') := s_serve_all rest st' in
      (resp :: resps, st'')
  end.

(** The addresses a descriptor refers to. *)
Definition info_refs (info : list (string * obj)) : list nat :=
  flat_map (fun entry => match snd entry with Ref l => [l] | Imm _ => [] end)
           info.

Definition descriptor_refs (desc : SDescriptor) : list nat :=
  flat_map (fun entry => info_refs (snd entry)) (sd_parameters desc).

Definition registry_refs (app : SApp) : list nat :=
  flat_map descriptor_refs (s_tool_info app).

(** [def remember(item, seen=[]): seen.append(item); return len(seen)],
    the list [seen] defaults to being the object at address 0. *)
Definition remember : SOperation :=
  mkSOp "remember" "remember" None
    [mkSParam "item" POSITIONAL_OR_KEYWORD None None;
     mkSParam "seen" POSITIONAL_OR_KEYWORD None (Some (Ref 0))]
    (fun locals σ =>
       match assoc_get "item" locals, assoc_get "seen" locals with
       | Some item, Some (Ref l) =>
           match σ !! l with
           | Some (PList xs) =>
               (Returned (PInt (Z.of_nat (length xs) + 1)),
                <[l := PList (xs ++ [deref σ item])]> σ)
           | _ => (Raised (mkExc "AttributeError"
                                 "object has no attribute 'append'"
                                 DerivesException), σ)
           end
       | Some item, Some (Imm (PList xs)) =>
           (Returned (PInt (Z.of_nat (length xs) + 1)), σ)
       | _, _ => (Raised (mkExc "AttributeError"
                                "object has no attribute 'append'"
                                DerivesException), σ)
       end).

(** The store in which [remember] is defined: its default is empty. *)
Definition fresh_store : gmap nat pyval := {[ 0%nat := PList [] ]}.

Definition remember_app : SApp :=
  s_expose_tools fresh_store [remember] "MCP Server" "" "1.0.0".

(** * Properties *)

(** ** The registry built by [expose_tools] *)

Section Registry.
Context {World : Type}.
Implicit Types (func : Operation World) (tools : list (Operation World)).
Implicit Types (reg : gmap string (Operation World) * list pyval).

Lemma foldl_register_info reg tools :
  snd (foldl register reg tools) = snd reg ++ map descriptor tools.
Proof.
  revert reg. induction tools as [|func tools IH]; intros reg; simpl.
  - by rewrite app_nil_r.
  - rewrite IH. simpl. by rewrite <- app_assoc.
Qed.

Lemma last_filter_cons name func tools :
  last (List.filter (named name) (func :: tools))
  = match last (List.filter (named name) tools) with
    | Some g => Some g
    | None => if named name func then Some func else None
    end.
Proof.
  simpl. destruct (named name func); [|by destruct (last _)].
  destruct (List.filter (named name) tools) as [|g rest] eqn:E; [done|].
  change (last (func :: g :: rest)) with (last (g :: rest)).
  destruct (last (g :: rest)) eqn:L; [done|].
  by apply last_None in L.
Qed.

Lemma foldl_register_map reg tools name :
  fst (foldl register reg tools) !! name
  = match last_named name tools with
    | Some func => Some func
    | None => fst reg !! name
    end.
Proof.
  unfold last_named.
  revert reg. induction tools as [|func tools IH]; intros reg; [done|].
  rewrite last_filter_cons. cbn [foldl]. rewrite IH.
  destruct (last (List.filter (named name) tools)); [done|].
  unfold register, named. cbn [fst].
  destruct (String.eqb_spec name (__name__ func)) as [->|Hne].
  - by rewrite lookup_insert_eq.
  - by rewrite lookup_insert_ne.
Qed.

Lemma expose_tools_info tools title description version :
  tool_info (expose_tools tools title description version)
  = map descriptor tools.
Proof. unfold expose_tools. cbn [tool_info]. by rewrite foldl_register_info. Qed.

Lemma expose_tools_map tools title description version name :
  tool_map (expose_tools tools title description version) !! name
  = last_named name tools.
Proof.
  unfold expose_tools. cbn [tool_map]. rewrite foldl_register_map.
  by destruct (last_named name tools).
Qed.

Lemma last_named_None name tools :
  last_named name tools = None <-> name ∉ map __name__ tools.
Proof.
  unfold last_named. rewrite last_None. split.
  - intros Hnil Hin. apply list_elem_of_fmap in Hin as (func & -> & Hin).
    assert (In func (List.filter (named (__name__ func)) tools)) as Hf.
    { apply filter_In. split; [by apply list_elem_of_In|].
      unfold named. by rewrite String.eqb_refl. }
    by rewrite Hnil in Hf.
  - intros Hnot. destruct (List.filter (named name) tools) as [|g rest] eqn:E; [done|].
    exfalso. apply Hnot.
    assert (In g (List.filter (named name) tools)) as Hf by (rewrite E; by left).
    apply filter_In in Hf as [Hin Hn]. unfold named in Hn.
    apply String.eqb_eq in Hn as ->.
    apply list_elem_of_fmap. exists g. split; [done|]. by apply list_elem_of_In.
Qed.

(** A name resolves to an operation of that name that was passed in. *)
Lemma last_named_Some name tools func :
  last_named name tools = Some func -> func ∈ tools /\ __name__ func = name.
Proof.
  unfold last_named. intros Hl.
  assert (In func (List.filter (named name) tools)) as Hf.
  { apply list_elem_of_In. apply last_Some in Hl as [l' ->]. set_solver. }
  apply filter_In in Hf as [Hin Hn]. split; [by apply list_elem_of_In|].
  unfold named in Hn. by apply String.eqb_eq in Hn.
Qed.

(** The last operation of a name shadows the earlier ones. *)
Lemma last_named_app name tools1 func tools2 :
  __name__ func = name -> name ∉ map __name__ tools2 ->
  last_named name (tools1 ++ func :: tools2) = Some func.
Proof.
  intros Hname Hnot. unfold last_named.
  rewrite List.filter_app. simpl. unfold named at 2.
  rewrite <- Hname, String.eqb_refl.
  apply last_named_None in Hnot. unfold last_named in Hnot.
  apply last_None in Hnot. rewrite <- Hname in Hnot. rewrite Hnot.
  by rewrite last_snoc.
Qed.
(** Lookup by name reaches the last operation registered under it: an
    earlier one of the same name is out of reach. *)
Lemma expose_tools_last_wins tools1 func tools2 title description version :
  __name__ func ∉ map __name__ tools2 ->
  tool_map (expose_tools (tools1 ++ func :: tools2) title description version)
    !! __name__ func = Some func.
Proof.
  intros Hnot. rewrite expose_tools_map. by apply last_named_app.
Qed.

(** The descriptor list has one entry per operation passed in, and
    [tool_map] one per name. *)
Lemma expose_tools_count tools title description version :
  length (tool_info (expose_tools tools title description version))
  = length tools.
Proof. by rewrite expose_tools_info, length_map. Qed.
End Registry.

(** ** The dispatcher *)

Lemma bind_TypeError qualname sig params e :
  bind qualname sig params = inl e -> is_TypeError e = true.
Proof.
  unfold bind. intros Hb.
  repeat match type of Hb with
         | context [match ?x with _ => _ end] => destruct x
         end; by inversion Hb.
Qed.

Section Dispatcher.
Context {World : Type}.
Implicit Types (app : App World) (func : Operation World) (w : World).
Implicit Types (body : option pydict).

(** [body or {}] is the body, an absent one read as the empty mapping. *)
Lemma body_or_empty_default body : body_or_empty body = default [] body.
Proof. by destruct body as [[|kv d]|]. Qed.

Lemma invoke_tool_registered app name func body w :
  tool_map app !! name = Some func ->
  invoke_tool app name body w
  = match call func (default [] body) w with
    | (Returned result, w') => (Returns (success_envelope name result), w')
    | (Raised e, w') =>
        if is_TypeError e then
          (HTTPException 422
             (parameter_error name e (param_names (signature func))
                (dict_keys (default [] body))), w')
        else if is_Exception e then (Returns (failure_envelope name e), w')
        else (Propagates e, w')
    end.
Proof.
  intros Hreg. unfold invoke_tool. by rewrite Hreg, body_or_empty_default.
Qed.

Lemma call_bound func params w locals :
  bind (__qualname__ func) (signature func) params = inr locals ->
  call func params w = body_of func locals w.
Proof. intros Hb. unfold call. by rewrite Hb. Qed.

(** C5. A tool name that is absent from the registry gets, whatever the
    body, the 404 whose detail is
    [Tool '<name>' not found. Use GET /mcp/list_tools to see available tools.];
    the handler lets no exception through and the host state is untouched. *)
Theorem invoke_unknown_tool app name body w :
  tool_map app !! name = None ->
  invoke_tool app name body w
  = (HTTPException 404
       (PStr ("Tool '" +:+ name
              +:+ "' not found. Use GET /mcp/list_tools to see available tools.")),
     w).
Proof. intros Habsent. unfold invoke_tool. by rewrite Habsent. Qed.

(** C4. When the call of a registered tool stops at the binding of the
    arguments (an unexpected key, a missing required key), the answer is
    the 422 whose detail carries the message of the failure, the tool name,
    every declared parameter name in declaration order, and the keys
    received in the order of the body. *)
Theorem invoke_parameter_mismatch app name func body w e :
  tool_map app !! name = Some func ->
  bind (__qualname__ func) (signature func) (default [] body) = inl e ->
  invoke_tool app name body w
  = (HTTPException 422
       (PDict [("error", PStr (exc_message e));
               ("tool", PStr name);
               ("expected_parameters", str_list (map p_name (signature func)));
               ("received_parameters", str_list (map fst (default [] body)))]),
     w).
Proof.
  intros Hreg Hb. rewrite (invoke_tool_registered _ _ _ _ _ Hreg).
  unfold call. rewrite Hb. by rewrite (bind_TypeError _ _ _ _ Hb).
Qed.

(** C6. When the arguments (an absent body counting as the empty mapping)
    bind to the parameters of a registered tool and the operation returns
    [result], the answer is [{success: true, tool: name, result: result}]. *)
Theorem invoke_success app name func body w locals result w' :
  tool_map app !! name = Some func ->
  bind (__qualname__ func) (signature func) (default [] body) = inr locals ->
  body_of func locals w = (Returned result, w') ->
  invoke_tool app name body w
  = (Returns (PDict [("success", PBool true);
                     ("tool", PStr name);
                     ("result", result)]), w').
Proof.
  intros Hreg Hb Hret. rewrite (invoke_tool_registered _ _ _ _ _ Hreg).
  by rewrite (call_bound _ _ _ _ Hb), Hret.
Qed.


(** Every way out of [invoke_tool]: one of the four responses, or an
    exception outside [Exception] that the tool raised and that goes
    through. *)
Lemma invoke_tool_outcomes app name body w :
  InvocationResponse name (fst (invoke_tool app name body w))
  \/ exists func e w',
      tool_map app !! name = Some func
      /\ call func (default [] body) w = (Raised e, w')
      /\ is_Exception e = false
      /\ invoke_tool app name body w = (Propagates e, w').
Proof.
  destruct (tool_map app !! name) as [func|] eqn:Hreg.
  - rewrite (invoke_tool_registered _ _ _ _ _ Hreg).
    destruct (call func (default [] body) w) as [[result|e] w'] eqn:Hcall.
    + left. constructor.
    + destruct (is_TypeError e); [left; constructor|].
      destruct (is_Exception e) eqn:Hexc; [left; constructor|].
      right. by exists func, e, w'.
  - unfold invoke_tool. rewrite Hreg. left. constructor.
Qed.

End Dispatcher.

(** *** The dispatcher on the sample tools *)

Lemma invoke_unknown_tool_witness :
  tool_map sample_app !! "nonexistent" = None
  /\ invoke_tool sample_app "nonexistent" (Some []) tt
     = (HTTPException 404
          (PStr "Tool 'nonexistent' not found. Use GET /mcp/list_tools to see available tools."),
        tt).
Proof.
  split; [reflexivity|].
  apply (invoke_unknown_tool sample_app "nonexistent" (Some []) tt).
  reflexivity.
Defined.

(** [add(a, b)] called with [{a: 2}]. *)
Lemma invoke_parameter_mismatch_witness :
  tool_map sample_app !! "add" = Some add
  /\ bind "add" (signature add) [("a", PInt 2)]
     = inl (TypeError "add() missing 1 required positional argument: 'b'")
  /\ invoke_tool sample_app "add" (Some [("a", PInt 2)]) tt
     = (HTTPException 422
          (PDict [("error", PStr "add() missing 1 required positional argument: 'b'");
                  ("tool", PStr "add");
                  ("expected_parameters", PList [PStr "a"; PStr "b"]);
                  ("received_parameters", PList [PStr "a"])]),
        tt).
Proof.
  split; [reflexivity|]. split; [reflexivity|].
  apply (invoke_parameter_mismatch sample_app "add" add (Some [("a", PInt 2)]) tt
           (TypeError "add() missing 1 required positional argument: 'b'"));
    reflexivity.
Defined.

(** [add(a, b)] called with [{a: 2, b: 3}]. *)
Lemma invoke_success_witness :
  tool_map sample_app !! "add" = Some add
  /\ bind "add" (signature add) [("a", PInt 2); ("b", PInt 3)]
     = inr [("a", PInt 2); ("b", PInt 3)]
  /\ invoke_tool sample_app "add" (Some [("a", PInt 2); ("b", PInt 3)]) tt
     = (Returns (PDict [("success", PBool true);
                        ("tool", PStr "add");
                        ("result", PInt 5)]), tt).
Proof.
  split; [reflexivity|]. split; [reflexivity|].
  apply (invoke_success sample_app "add" add
           (Some [("a", PInt 2); ("b", PInt 3)]) tt
           [("a", PInt 2); ("b", PInt 3)] (PInt 5) tt);
    reflexivity.
Defined.





(** ** Two operations of one name *)

(** C1 on the code.  Two operations called [render] are registered: the
    descriptor list publishes both, the earlier one first, and counts 2,
    while [tool_map] holds one tool, which [health] reports, and [render]
    resolves to the later operation. *)
Theorem duplicate_name_published_twice :
  list_tools render_app
  = PDict [("tools",
            PList [PDict [("name", PStr "render");
                          ("description", PStr "Render one frame.");
                          ("parameters",
                           PDict [("frame", PDict [("required", PBool true);
                                                   ("type", PStr "int")])])];
                   PDict [("name", PStr "render");
                          ("description", PStr "Render a range of frames.");
                          ("parameters",
                           PDict [("start", PDict [("required", PBool false);
                                                   ("default", PInt 1)]);
                                  ("end", PDict [("required", PBool false);
                                                 ("default", PInt 250)])])]]);
           ("count", PInt 2)]
  /\ health render_app
     = PDict [("status", PStr "ok"); ("server", PStr "MCP Server");
              ("version", PStr "1.0.0"); ("tools", PInt 1)]
  /\ tool_map render_app !! "render" = Some render_animation
  /\ invoke_tool render_app "render" None tt
     = (Returns (PDict [("success", PBool true);
                        ("tool", PStr "render");
                        ("result", PStr "animation")]), tt).
Proof. repeat split; reflexivity. Qed.

(** ** The introspector *)

Lemma dict_get_set key key' v d :
  dict_get key (dict_set key' v d)
  = if String.eqb key key' then Some v else dict_get key d.
Proof.
  induction d as [|[k w] rest IH]; simpl.
  - done.
  - destruct (String.eqb_spec key' k) as [->|Hne]; simpl.
    + by destruct (String.eqb key k).
    + rewrite IH. destruct (String.eqb_spec key k) as [->|Hne'].
      * by rewrite (proj2 (String.eqb_neq k key')).
      * done.
Qed.

Lemma dict_set_elem key v d k w :
  (k, w) ∈ dict_set key v d -> (k, w) = (key, v) \/ (k, w) ∈ d.
Proof.
  induction d as [|[k0 w0] rest IH]; simpl.
  - intros Hin. left. by apply list_elem_of_singleton in Hin.
  - destruct (String.eqb_spec key k0) as [->|Hne];
      intros Hin; apply elem_of_cons in Hin as [Heq|Hin].
    + by left.
    + right. by apply elem_of_cons; right.
    + right. rewrite Heq. by apply elem_of_cons; left.
    + destruct (IH Hin) as [?|?]; [by left|]. right. by apply elem_of_cons; right.
Qed.

(** The entry of a parameter always says whether it is required. *)
Lemma param_info_required param :
  dict_get "required" (param_info param)
  = Some (PBool (is_empty (p_default param))).
Proof.
  unfold param_info.
  destruct (p_annotation param), (p_default param) as [d|];
    try destruct (json_serializable d); reflexivity.
Qed.

(** It has a [default] key exactly when the parameter has a default. *)
Lemma param_info_default_key param :
  dict_mem "default" (param_info param) = negb (is_empty (p_default param)).
Proof.
  unfold param_info.
  destruct (p_annotation param), (p_default param) as [d|];
    try destruct (json_serializable d); reflexivity.
Qed.

Lemma param_info_default param d :
  p_default param = Some d ->
  dict_get "default" (param_info param)
  = Some (if json_serializable d then d else PStr (py_str d)).
Proof.
  intros Hd. unfold param_info. rewrite Hd.
  destruct (p_annotation param), (json_serializable d); reflexivity.
Qed.

Section Introspector.
Context {World : Type}.
Implicit Types (func : Operation World) (param : Param) (sig : list Param).

Lemma add_params_elem sig params k entry :
  (k, entry) ∈ foldl add_param params sig ->
  (k, entry) ∈ params
  \/ exists param, param ∈ sig /\ p_name param = k
                   /\ entry = PDict (param_info param).
Proof.
  revert params. induction sig as [|q sig IH]; intros params; simpl.
  - by left.
  - intros Hin. destruct (IH _ Hin) as [Hacc|(param & Hp & Hk & He)].
    + apply dict_set_elem in Hacc as [Heq|Hold]; [|by left].
      right. exists q. inversion Heq. split; [by apply elem_of_cons; left|done].
    + right. exists param. split; [by apply elem_of_cons; right|done].
Qed.

Lemma add_params_other sig params name :
  name ∉ param_names sig ->
  dict_get name (foldl add_param params sig) = dict_get name params.
Proof.
  revert params. induction sig as [|q sig IH]; intros params Hnot; simpl; [done|].
  rewrite IH.
  - unfold add_param. rewrite dict_get_set.
    destruct (String.eqb_spec name (p_name q)) as [->|Hne]; [|done].
    exfalso. apply Hnot. by apply elem_of_cons; left.
  - intros Hin. apply Hnot. by apply elem_of_cons; right.
Qed.

Lemma add_params_get sig params param :
  NoDup (param_names sig) -> param ∈ sig ->
  dict_get (p_name param) (foldl add_param params sig)
  = Some (PDict (param_info param)).
Proof.
  revert params. induction sig as [|q sig IH]; intros params Hnd Hin.
  - by apply elem_of_nil in Hin.
  - apply NoDup_cons in Hnd as [Hq Hnd].
    apply elem_of_cons in Hin as [->|Hin]; simpl.
    + rewrite add_params_other by done.
      unfold add_param. by rewrite dict_get_set, String.eqb_refl.
    + by apply IH.
Qed.

(** Each entry of the [parameters] dict is the [info] of a declared parameter
    of that name. *)
Lemma extract_param_info_entry func k entry :
  (k, entry) ∈ _extract_param_info func ->
  exists param, param ∈ signature func /\ p_name param = k
                /\ entry = PDict (param_info param).
Proof.
  intros Hin. apply add_params_elem in Hin as [Hnil|Hp]; [|done].
  by apply elem_of_nil in Hnil.
Qed.

(** C10. In every published descriptor, each entry of [parameters] is the
    info of a declared parameter of that name: it has a [required] flag,
    true exactly when the parameter declares no default, and it has a
    [default] key exactly when [required] is false. *)
Theorem published_required_default
        (tools : list (Operation World)) title description version desc :
  desc ∈ tool_info (expose_tools tools title description version) ->
  exists func,
    func ∈ tools
    /\ desc = PDict [("name", PStr (__name__ func));
                     ("description", PStr (_extract_docstring func));
                     ("parameters", PDict (_extract_param_info func))]
    /\ forall pname entry,
        (pname, entry) ∈ _extract_param_info func ->
        exists param info required,
          param ∈ signature func /\ p_name param = pname
          /\ entry = PDict info
          /\ dict_get "required" info = Some (PBool required)
          /\ (required = true <-> p_default param = None)
          /\ dict_mem "default" info = negb required.
Proof.
  rewrite expose_tools_info. intros Hin.
  apply list_elem_of_fmap in Hin as (func & -> & Hin).
  exists func. split; [done|]. split; [done|].
  intros pname entry Hentry.
  apply extract_param_info_entry in Hentry as (param & Hp & Hname & ->).
  exists param, (param_info param), (is_empty (p_default param)).
  repeat split; try done.
  - apply param_info_required.
  - by destruct (p_default param).
  - intros ->. done.
  - apply param_info_default_key.
Qed.
End Introspector.

(** ** The description *)

Lemma append_cons c s t : String c s +:+ t = String c (s +:+ t).
Proof. reflexivity. Qed.

Lemma append_nil_r s : s +:+ "" = s.
Proof.
  induction s as [|c s IH]; [done|]. by rewrite append_cons, IH.
Qed.

Lemma append_assoc s1 s2 s3 : (s1 +:+ s2) +:+ s3 = s1 +:+ (s2 +:+ s3).
Proof.
  induction s1 as [|c s1 IH]; [done|]. by rewrite !append_cons, IH.
Qed.

Lemma string_of_list_ascii_snoc l c :
  string_of_list_ascii (l ++ [c]) = string_of_list_ascii l +:+ str1 c.
Proof.
  induction l as [|a l IH]; [done|]. simpl. by rewrite append_cons, IH.
Qed.

Lemma first_paragraph_unfold doc :
  first_paragraph doc
  = if String.prefix blank_line doc then ""
    else match doc with
         | EmptyString => ""
         | String c rest => String c (first_paragraph rest)
         end.
Proof. by destruct doc. Qed.

Lemma prefix_append s1 s2 :
  String.prefix s1 s2 = true <-> exists r, s2 = s1 +:+ r.
Proof.
  revert s2. induction s1 as [|a s1 IH]; intros s2.
  - split; [by exists s2|by destruct s2].
  - destruct s2 as [|b s2]; simpl.
    + split; [done|]. by intros [r Hr].
    + destruct (ascii_dec a b) as [->|Hne].
      * rewrite IH. split; intros [r Hr]; exists r.
        -- by rewrite append_cons, <- Hr.
        -- rewrite append_cons in Hr. by inversion Hr.
      * split; [done|]. intros [r Hr]. rewrite append_cons in Hr.
        inversion Hr. by subst.
Qed.

(** [first_paragraph] is the text before the leftmost blank-line boundary,
    and the whole text when there is none. *)
Lemma first_paragraph_spec doc :
  (first_paragraph doc = doc
   /\ forall p r, doc <> p +:+ blank_line +:+ r)
  \/ (exists rest, doc = first_paragraph doc +:+ blank_line +:+ rest)
     /\ forall p r, doc = p +:+ blank_line +:+ r ->
                    (String.length (first_paragraph doc) <= String.length p)%nat.
Proof.
  induction doc as [|c doc IH]; rewrite first_paragraph_unfold.
  - left. split; [done|]. by intros [|a p] r.
  - destruct (String.prefix blank_line (String c doc)) eqn:Hpre.
    + right. apply prefix_append in Hpre as [rest Hrest].
      split; [by exists rest|]. intros p r _. simpl. lia.
    + assert (forall r, String c doc <> blank_line +:+ r) as Hno.
      { intros r Hr. assert (String.prefix blank_line (String c doc) = true)
          by (apply prefix_append; by exists r). congruence. }
      destruct IH as [[Hfp Hnone]|[[rest Hrest] Hmin]].
      * left. rewrite Hfp. split; [done|].
        intros [|a p] r Heq; [by apply (Hno r)|].
        rewrite append_cons in Heq. injection Heq as Ha Hd.
        by apply (Hnone p r).
      * right. split.
        -- exists rest. by rewrite append_cons, <- Hrest.
        -- intros [|a p] r Heq; [by destruct (Hno r)|].
           rewrite append_cons in Heq. injection Heq as Ha Hd.
           simpl. apply le_n_S. by apply (Hmin p r).
Qed.

(** The first piece of the split is the text before the first separator. *)
Lemma split_go_hd doc cur :
  hd "" (split_go blank_line 0 cur doc)
  = string_of_list_ascii (rev cur) +:+ first_paragraph doc.
Proof.
  revert cur. induction doc as [|c doc IH]; intros cur.
  - cbn [split_go hd first_paragraph].
    destruct (String.prefix blank_line ""); by rewrite append_nil_r.
  - rewrite first_paragraph_unfold. cbn [split_go].
    destruct (String.prefix blank_line (String c doc)).
    + cbn [hd]. by rewrite append_nil_r.
    + rewrite IH. cbn [rev]. by rewrite string_of_list_ascii_snoc, append_assoc.
Qed.

Lemma split_hd doc : hd "" (split blank_line doc) = first_paragraph doc.
Proof. unfold split. by rewrite split_go_hd. Qed.

Lemma all_space_cons c s :
  all_space (String c s) = isspace c && all_space s.
Proof. reflexivity. Qed.

Lemma lstrip_spec s :
  exists l, s = l +:+ lstrip s /\ all_space l = true.
Proof.
  induction s as [|c s (l & Hs & Hl)]; simpl.
  - by exists "".
  - destruct (isspace c) eqn:Hc.
    + exists (String c l). rewrite append_cons, <- Hs.
      split; [done|]. by rewrite all_space_cons, Hc.
    + by exists "".
Qed.

Lemma lstrip_head s c t : lstrip s = String c t -> isspace c = false.
Proof.
  induction s as [|a s IH]; simpl; [done|].
  destruct (isspace a) eqn:Ha; [done|]. intros Heq. by inversion Heq; subst.
Qed.

Lemma rstrip_spec s :
  exists r, s = rstrip s +:+ r /\ all_space r = true.
Proof.
  induction s as [|c s (r & Hs & Hr)]; simpl.
  - by exists "".
  - destruct (rstrip s) as [|b t] eqn:Ht.
    + change ("" +:+ r) with r in Hs. subst r.
      destruct (isspace c) eqn:Hc.
      * exists (String c s). split; [done|]. by rewrite all_space_cons, Hc.
      * exists s. by split.
    + exists r. rewrite append_cons, <- Hs. by split.
Qed.

Lemma rstrip_last s t c : rstrip s = t +:+ str1 c -> isspace c = false.
Proof.
  revert t. induction s as [|a s IH]; intros t; simpl.
  - by destruct t.
  - destruct (rstrip s) as [|b r] eqn:Hr.
    + destruct (isspace a) eqn:Ha; [by destruct t|].
      destruct t as [|a' [|? ?]]; intros Heq; inversion Heq; by subst.
    + destruct t as [|a' t]; intros Heq; inversion Heq; subst.
      by apply (IH t).
Qed.

(** What is left of [rstrip] starts as the text did. *)
Lemma rstrip_head s c t :
  rstrip s = String c t -> exists t', s = String c t'.
Proof.
  destruct s as [|a s]; simpl; [done|].
  destruct (rstrip s); [destruct (isspace a)|]; intros Heq; inversion Heq; eauto.
Qed.

Lemma strip_trimmed s : trimmed_of s (strip s).
Proof.
  unfold strip. destruct (lstrip_spec s) as (l & Hs & Hl).
  destruct (rstrip_spec (lstrip s)) as (r & Hm & Hr).
  split; [|split].
  - exists l, r. split; [|done]. by rewrite <- Hm.
  - intros c t Heq. apply rstrip_head in Heq as [t' Heq].
    by apply lstrip_head in Heq.
  - intros t c. apply rstrip_last.
Qed.

Section Description.
Context {World : Type}.

(** C8. The description is the text of the documentation up to its first
    blank-line boundary, trimmed of surrounding whitespace; it is the empty
    string for an operation without documentation. *)
Theorem extract_docstring_first_paragraph (func : Operation World) :
  match getdoc func with
  | None => _extract_docstring func = ""
  | Some doc => trimmed_of (first_paragraph doc) (_extract_docstring func)
  end.
Proof.
  unfold _extract_docstring. destruct (getdoc func) as [doc|]; [|done].
  destruct (String.eqb_spec doc "") as [->|Hne].
  - apply (strip_trimmed "").
  - rewrite split_hd. apply strip_trimmed.
Qed.
End Description.

(** [scale] has a two-paragraph docstring. *)
Example scale_description : _extract_docstring scale = "Scale an object.".
Proof. reflexivity. Qed.

(** *** The introspector on [scale] *)

Lemma scale_names_distinct : NoDup (param_names (signature scale)).
Proof. apply (bool_decide_unpack _). vm_compute. exact I. Defined.

Lemma published_required_default_witness :
  descriptor scale ∈ tool_info (expose_tools [add; scale] "MCP Server" "" "1.0.0")
  /\ exists func,
      func ∈ [add; scale]
      /\ descriptor scale
         = PDict [("name", PStr (__name__ func));
                  ("description", PStr (_extract_docstring func));
                  ("parameters", PDict (_extract_param_info func))]
      /\ forall pname entry,
          (pname, entry) ∈ _extract_param_info func ->
          exists param info required,
            param ∈ signature func /\ p_name param = pname
            /\ entry = PDict info
            /\ dict_get "required" info = Some (PBool required)
            /\ (required = true <-> p_default param = None)
            /\ dict_mem "default" info = negb required.
Proof.
  assert (descriptor scale
          ∈ tool_info (expose_tools [add; scale] "MCP Server" "" "1.0.0")) as Hin
      by (apply list_elem_of_In; simpl; tauto).
  split; [exact Hin|].
  exact (published_required_default [add; scale] "MCP Server" "" "1.0.0"
           (descriptor scale) Hin).
Defined.


(** * Further properties *)

(** ** What the two read endpoints report *)

Lemma remove_dups_length {A} `{EqDecision A} (l : list A) :
  (length (remove_dups l) <= length l)%nat
  /\ (length (remove_dups l) = length l <-> NoDup l).
Proof.
  induction l as [|x l [IHle IHeq]]; simpl.
  - split; [lia|]. split; [constructor|done].
  - rewrite NoDup_cons. destruct (decide_rel elem_of x l) as [Hin|Hnot]; simpl.
    + split; [lia|]. split; [lia|]. by intros [Hx _].
    + split; [lia|]. rewrite <- IHeq. split; [intros; split; [done|lia]|].
      intros [_ Heq]. lia.
Qed.

Section Counts.
Context {World : Type}.
Implicit Types (func : Operation World) (tools : list (Operation World)).
Implicit Types (reg : gmap string (Operation World) * list pyval).

Lemma foldl_register_dom reg tools :
  dom (fst (foldl register reg tools))
  = dom (fst reg) ∪ list_to_set (map __name__ tools).
Proof.
  revert reg. induction tools as [|func tools IH]; intros reg; simpl.
  - by rewrite (right_id_L ∅ (∪)).
  - rewrite IH. unfold register. cbn [fst]. rewrite dom_insert_L.
    by rewrite (comm_L (∪) {[__name__ func]} (dom reg.1)), (assoc_L (∪)).
Qed.

Lemma expose_tools_size tools title description version :
  size (tool_map (expose_tools tools title description version))
  = length (remove_dups (map __name__ tools)).
Proof.
  unfold expose_tools. cbn [tool_map].
  rewrite <- size_dom, foldl_register_dom. cbn [fst].
  rewrite dom_empty_L, (left_id_L ∅ (∪)).
  rewrite <- (size_list_to_set (C:=gset string) (remove_dups _))
    by apply NoDup_remove_dups.
  f_equal. apply set_eq. intros name.
  by rewrite !elem_of_list_to_set, elem_of_remove_dups.
Qed.

(** X1. The discovery payload lists the descriptor of every operation passed
    to [expose_tools], in the order passed, and [count] is their number. *)
Theorem list_tools_payload tools title description version :
  list_tools (expose_tools tools title description version)
  = PDict [("tools", PList (map descriptor tools));
           ("count", PInt (Z.of_nat (length tools)))].
Proof.
  unfold list_tools. by rewrite expose_tools_info, length_map.
Qed.

(** X2. The health payload carries [status: ok], the title and version given
    at construction, and as [tools] the number of distinct operation names. *)
Theorem health_payload tools title description version :
  health (expose_tools tools title description version)
  = PDict [("status", PStr "ok");
           ("server", PStr title);
           ("version", PStr version);
           ("tools",
            PInt (Z.of_nat (length (remove_dups (map __name__ tools)))))].
Proof.
  unfold health. by rewrite expose_tools_size.
Qed.

(** X3. [health] never counts more tools than [list_tools], and the two
    counts agree exactly when the operations have pairwise distinct names. *)
Theorem health_count_le_list_count tools title description version :
  let app := expose_tools tools title description version in
  (size (tool_map app) <= length (tool_info app))%nat
  /\ (size (tool_map app) = length (tool_info app)
      <-> NoDup (map __name__ tools)).
Proof.
  cbv zeta. rewrite expose_tools_size, expose_tools_count.
  pose proof (remove_dups_length (map __name__ tools)) as Hlen.
  by rewrite length_map in Hlen.
Qed.
End Counts.

(** ** Discovery and dispatch *)

Section Agreement.
Context {World : Type}.
Implicit Types (func : Operation World) (tools : list (Operation World)).

Lemma descriptor_name_descriptor func :
  descriptor_name (descriptor func) = Some (PStr (__name__ func)).
Proof. reflexivity. Qed.

Lemma last_named_append name tools more :
  last_named name (tools ++ more)
  = match last_named name more with
    | Some func => Some func
    | None => last_named name tools
    end.
Proof. unfold last_named. by rewrite List.filter_app, last_app. Qed.

(** X4. The two endpoints agree on the names: [invoke_tool] answers the 404
    for a name exactly when no published descriptor bears it. *)
Theorem not_found_iff_unlisted tools title description version name body w :
  let app := expose_tools tools title description version in
  fst (invoke_tool app name body w) = HTTPException 404 (not_found name)
  <-> forall desc, desc ∈ tool_info app ->
                   descriptor_name desc <> Some (PStr name).
Proof.
  cbv zeta. rewrite expose_tools_info. split.
  - intros H404 desc Hin Hname.
    apply list_elem_of_fmap in Hin as (func & -> & Hin).
    rewrite descriptor_name_descriptor in Hname. injection Hname as Hname.
    destruct (last_named name tools) as [g|] eqn:Hlast.
    + rewrite <- expose_tools_map with (title := title)
        (description := description) (version := version) in Hlast.
      rewrite (invoke_tool_registered _ _ _ _ _ Hlast) in H404.
      destruct (call g (default [] body) w) as [[result|e] w']; [done|].
      destruct (is_TypeError e); [done|]. by destruct (is_Exception e).
    + apply last_named_None in Hlast. apply Hlast.
      apply list_elem_of_fmap. by exists func.
  - intros Hnone. unfold invoke_tool. rewrite expose_tools_map.
    destruct (last_named name tools) as [g|] eqn:Hlast; [|done].
    apply last_named_Some in Hlast as [Hin Hname].
    destruct (Hnone (descriptor g)).
    + apply list_elem_of_fmap. by exists g.
    + by rewrite descriptor_name_descriptor, Hname.
Qed.

(** X5. Registering [tools] and then [more] publishes the descriptors of
    [tools] followed by those of [more], and resolves every name as [more]
    does when [more] has it, and as [tools] does otherwise. *)
Theorem expose_tools_append tools more title description version :
  let app := expose_tools (tools ++ more) title description version in
  let app1 := expose_tools tools title description version in
  let app2 := expose_tools more title description version in
  tool_info app = tool_info app1 ++ tool_info app2
  /\ tool_map app = tool_map app2 ∪ tool_map app1.
Proof.
  cbv zeta. split.
  - by rewrite !expose_tools_info, map_app.
  - apply map_eq. intros name.
    rewrite lookup_union, !expose_tools_map, last_named_append.
    by destruct (last_named name more), (last_named name tools).
Qed.
End Agreement.

(** ** Binding the body to the parameters *)

Lemma dict_mem_keys key (d : pydict) :
  dict_mem key d = true <-> key ∈ dict_keys d.
Proof.
  unfold dict_mem, dict_keys. rewrite existsb_exists. split.
  - intros (k & Hin & Heq). apply String.eqb_eq in Heq as ->.
    by apply list_elem_of_In.
  - intros Hin. exists key. split; [by apply list_elem_of_In|].
    apply String.eqb_refl.
Qed.

Lemma dict_get_mem key (d : pydict) :
  dict_mem key d = true <-> is_Some (dict_get key d).
Proof.
  unfold dict_mem. induction d as [|[k v] rest IH]; simpl.
  - split; [done|]. by intros [? ?].
  - destruct (String.eqb key k); simpl; [|done]. split; [eauto|done].
Qed.

(** How a binding goes through: every keyword is taken, by a parameter of
    its name or by [**kwargs], and no parameter is left without value. *)
Lemma bind_inr qualname sig params locals :
  bind qualname sig params = inr locals <->
  (unmatched sig params = [] \/ has_var_keyword sig = true)
  /\ missing sig params true = [] /\ missing sig params false = []
  /\ locals = map (fun p => (p_name p, bound_value sig params p)) sig.
Proof.
  unfold bind.
  destruct (unmatched sig params) as [|[key v] rest];
    destruct (has_var_keyword sig);
    destruct (missing sig params true) as [|n1 l1];
    destruct (missing sig params false) as [|n2 l2];
    try destruct (positional_only_named sig params);
    split; try (intros [[?|?] (? & ? & ?)]); try done;
    try (by subst);
    try (intros Heq; injection Heq as <-; repeat split; auto; fail).
Qed.

Lemma bind_total qualname sig params :
  (exists e, bind qualname sig params = inl e)
  \/ (exists locals, bind qualname sig params = inr locals).
Proof. destruct (bind qualname sig params); eauto. Qed.

(** A keyword that is no parameter name stops the call when the signature
    has no [**kwargs]. *)
Lemma bind_unexpected qualname sig params key :
  key ∈ dict_keys params ->
  key ∉ param_names sig ->
  has_var_keyword sig = false ->
  exists e, bind qualname sig params = inl e.
Proof.
  intros Hkey Hno Hvar.
  destruct (bind_total qualname sig params) as [?|[locals Hb]]; [done|].
  apply bind_inr in Hb as ([Hun|Hv] & _); [|congruence].
  exfalso. apply list_elem_of_fmap in Hkey as ([k v] & -> & Hin).
  assert ((k, v) ∈ unmatched sig params) as Hmem; [|by rewrite Hun in Hmem;
                                                     apply elem_of_nil in Hmem].
  unfold unmatched. apply list_elem_of_filter. split; [|done].
  apply Is_true_true. apply negb_true_iff. apply not_true_iff_false.
  intros Hex. apply existsb_exists in Hex as (p & Hp & Hacc).
  apply andb_true_iff in Hacc as [_ Hname]. unfold has_name in Hname.
  apply String.eqb_eq in Hname. simpl in Hname. apply Hno.
  apply list_elem_of_fmap. exists p. split; [done|by apply list_elem_of_In].
Qed.

(** A parameter that is neither [*args] nor [**kwargs] and is left without a
    value stops the call. *)
Lemma bind_unfilled qualname sig params p :
  p ∈ sig -> is_var p = false -> unfilled params p = true ->
  exists e, bind qualname sig params = inl e.
Proof.
  intros Hin Hvar Hun.
  destruct (bind_total qualname sig params) as [?|[locals Hb]]; [done|].
  apply bind_inr in Hb as (_ & Hpos & Hkw & _). exfalso.
  assert (is_positional p = true \/ is_kind KEYWORD_ONLY p = true) as [Hk|Hk].
  { unfold is_var, is_positional, is_kind in *. destruct (p_kind p); auto. }
  - assert (p_name p ∈ missing sig params true) as Hmem;
      [|by rewrite Hpos in Hmem; apply elem_of_nil in Hmem].
    unfold missing, param_names. apply list_elem_of_fmap. exists p.
    split; [done|]. apply list_elem_of_filter. split; [|done].
    by rewrite Hk, Hun.
  - assert (p_name p ∈ missing sig params false) as Hmem;
      [|by rewrite Hkw in Hmem; apply elem_of_nil in Hmem].
    unfold missing, param_names. apply list_elem_of_fmap. exists p.
    split; [done|]. apply list_elem_of_filter. split; [|done].
    by rewrite Hk, Hun.
Qed.

Lemma dict_get_entries {A} (name : A -> string) (value : A -> pyval)
      (l : list A) (x : A) :
  NoDup (map name l) -> x ∈ l ->
  dict_get (name x) (map (fun y => (name y, value y)) l) = Some (value x).
Proof.
  induction l as [|y l IH]; intros Hnd Hin; [by apply elem_of_nil in Hin|].
  simpl in Hnd. apply NoDup_cons in Hnd as [Hy Hnd]. simpl.
  apply elem_of_cons in Hin as [->|Hin]; [by rewrite String.eqb_refl|].
  destruct (String.eqb_spec (name x) (name y)) as [Heq|_]; [|by apply IH].
  exfalso. apply Hy. rewrite <- Heq. apply list_elem_of_fmap. by exists x.
Qed.

Lemma dict_get_filter (keep : string -> bool) (d : pydict) key :
  keep key = true ->
  dict_get key (filter (fun kv => keep (fst kv)) d) = dict_get key d.
Proof.
  intros Hkeep. induction d as [|[k v] rest IH]; [done|].
  rewrite filter_cons. simpl.
  destruct (String.eqb_spec key k) as [->|Hne].
  - rewrite decide_True by (by apply Is_true_true). simpl.
    by rewrite String.eqb_refl.
  - destruct (decide _); [|done]. simpl.
    by rewrite (proj2 (String.eqb_neq key k) Hne).
Qed.

(** X12. Every argument of the body reaches the operation: its value is
    bound to the parameter of its name, or it is an entry of the dict bound
    to [**kwargs]. *)
Theorem arguments_reach_operation qualname sig params locals key v :
  NoDup (param_names sig) ->
  bind qualname sig params = inr locals ->
  dict_get key params = Some v ->
  dict_get key locals = Some v
  \/ exists kw extras,
      kw ∈ sig /\ p_kind kw = VAR_KEYWORD
      /\ dict_get (p_name kw) locals = Some (PDict extras)
      /\ dict_get key extras = Some v.
Proof.
  intros Hnd Hb Hget. apply bind_inr in Hb as (Hextra & _ & _ & ->).
  destruct (existsb (fun p => accepts_keyword p && has_name key p) sig) eqn:Hex.
  - left. apply existsb_exists in Hex as (p & Hp & Hacc).
    apply andb_true_iff in Hacc as [Hacc Hname].
    apply String.eqb_eq in Hname as ->. apply list_elem_of_In in Hp.
    rewrite (dict_get_entries p_name (bound_value sig params) sig p Hnd Hp).
    unfold bound_value. rewrite Hacc, Hget.
    unfold accepts_keyword in Hacc. by destruct (p_kind p).
  - right.
    assert (dict_get key (unmatched sig params) = Some v) as Hun.
    { unfold unmatched.
      rewrite (dict_get_filter
                 (fun k => negb (existsb (fun p => accepts_keyword p && has_name k p) sig)));
        [done|by rewrite Hex]. }
    destruct Hextra as [Hnil|Hvar]; [by rewrite Hnil in Hun|].
    apply existsb_exists in Hvar as (kw & Hkw & Hkind).
    apply list_elem_of_In in Hkw.
    exists kw, (unmatched sig params). split; [done|].
    assert (p_kind kw = VAR_KEYWORD) as Hk
        by (unfold is_kind in Hkind; by destruct (p_kind kw)).
    split; [done|]. split; [|done].
    rewrite (dict_get_entries p_name (bound_value sig params) sig kw Hnd Hkw).
    unfold bound_value. by rewrite Hk.
Qed.

(** X13. A parameter with a default that the body does not name is bound to
    its default. *)
Theorem omitted_parameter_gets_default qualname sig params locals p d :
  NoDup (param_names sig) ->
  bind qualname sig params = inr locals ->
  p ∈ sig -> is_var p = false ->
  p_default p = Some d ->
  p_name p ∉ dict_keys params ->
  dict_get (p_name p) locals = Some d.
Proof.
  intros Hnd Hb Hp Hvar Hd Hkey. apply bind_inr in Hb as (_ & _ & _ & ->).
  rewrite (dict_get_entries p_name (bound_value sig params) sig p Hnd Hp).
  unfold bound_value.
  assert (dict_get (p_name p) params = None) as Hnone.
  { destruct (dict_get (p_name p) params) eqn:Hg; [|done]. exfalso.
    apply Hkey. apply dict_mem_keys. apply dict_get_mem. by rewrite Hg. }
  rewrite Hnone, Hd. unfold is_var, is_kind in Hvar.
  destruct (p_kind p), (accepts_keyword p); done.
Qed.

Section Rejections.
Context {World : Type}.
Implicit Types (app : App World) (func : Operation World) (w : World).
Implicit Types (body : option pydict).

Lemma invoke_tool_bind_failed app name func body w e :
  tool_map app !! name = Some func ->
  bind (__qualname__ func) (signature func) (default [] body) = inl e ->
  invoke_tool app name body w
  = (HTTPException 422
       (parameter_error name e (param_names (signature func))
          (dict_keys (default [] body))), w).
Proof.
  intros Hreg Hb. rewrite (invoke_tool_registered _ _ _ _ _ Hreg).
  unfold call. rewrite Hb. by rewrite (bind_TypeError _ _ _ _ Hb).
Qed.

(** X6. A request that is turned down before the call (unknown name, or
    arguments that do not bind) runs no tool: the host state is as it was. *)
Theorem rejected_request_leaves_host app name body w :
  tool_map app !! name = None
  \/ (exists func e,
        tool_map app !! name = Some func
        /\ bind (__qualname__ func) (signature func) (default [] body) = inl e) ->
  snd (invoke_tool app name body w) = w.
Proof.
  intros [Hnone|(func & e & Hreg & Hb)].
  - unfold invoke_tool. by rewrite Hnone.
  - by rewrite (invoke_tool_bind_failed _ _ _ _ _ _ Hreg Hb).
Qed.


(** X8. An exception outside [Exception] raised by the tool is not caught:
    it leaves the handler as it is. *)
Theorem base_exception_propagates app name func body w locals e w' :
  tool_map app !! name = Some func ->
  bind (__qualname__ func) (signature func) (default [] body) = inr locals ->
  body_of func locals w = (Raised e, w') ->
  is_Exception e = false ->
  invoke_tool app name body w = (Propagates e, w').
Proof.
  intros Hreg Hb Hraise Hexc. rewrite (invoke_tool_registered _ _ _ _ _ Hreg).
  rewrite (call_bound _ _ _ _ Hb), Hraise, Hexc.
  unfold is_TypeError, is_Exception in *. by destruct (exc_base e).
Qed.

(** X9. A body with a key that is no parameter name is answered with the 422
    when the operation has no [**kwargs]; the tool is not run. *)
Theorem unexpected_key_rejected app name func body w key :
  tool_map app !! name = Some func ->
  key ∈ dict_keys (default [] body) ->
  key ∉ param_names (signature func) ->
  has_var_keyword (signature func) = false ->
  exists e,
    invoke_tool app name body w
    = (HTTPException 422
         (parameter_error name e (param_names (signature func))
            (dict_keys (default [] body))), w).
Proof.
  intros Hreg Hkey Hno Hvar.
  destruct (bind_unexpected (__qualname__ func) _ _ _ Hkey Hno Hvar) as [e Hb].
  exists e. by apply invoke_tool_bind_failed.
Qed.

(** X10. A body that leaves out a parameter without default, other than
    [*args] and [**kwargs], is answered with the 422; the tool is not run. *)
Theorem missing_parameter_rejected app name func body w p :
  tool_map app !! name = Some func ->
  p ∈ signature func -> is_var p = false ->
  p_default p = None ->
  p_name p ∉ dict_keys (default [] body) ->
  exists e,
    invoke_tool app name body w
    = (HTTPException 422
         (parameter_error name e (param_names (signature func))
            (dict_keys (default [] body))), w).
Proof.
  intros Hreg Hp Hvar Hd Hkey.
  assert (unfilled (default [] body) p = true) as Hun.
  { unfold unfilled. rewrite Hd. simpl. rewrite andb_true_r.
    apply negb_true_iff. apply andb_false_iff. right.
    apply not_true_iff_false. intros Hmem. by apply dict_mem_keys in Hmem. }
  destruct (bind_unfilled (__qualname__ func) _ _ _ Hp Hvar Hun) as [e Hb].
  exists e. by apply invoke_tool_bind_failed.
Qed.

(** X11. A tool with a positional-only parameter without default cannot be
    invoked: arguments are passed by keyword only, and every body is
    answered with the 422. *)
Theorem positional_only_never_invocable app name func p :
  tool_map app !! name = Some func ->
  p ∈ signature func ->
  p_kind p = POSITIONAL_ONLY ->
  p_default p = None ->
  forall body w, exists e,
    invoke_tool app name body w
    = (HTTPException 422
         (parameter_error name e (param_names (signature func))
            (dict_keys (default [] body))), w).
Proof.
  intros Hreg Hp Hkind Hd body w.
  assert (unfilled (default [] body) p = true) as Hun.
  { unfold unfilled, accepts_keyword. by rewrite Hkind, Hd. }
  assert (is_var p = false) as Hvar
      by (unfold is_var, is_kind; by rewrite Hkind).
  destruct (bind_unfilled (__qualname__ func) _ _ _ Hp Hvar Hun) as [e Hb].
  exists e. by apply invoke_tool_bind_failed.
Qed.
End Rejections.

(** ** More on the introspector *)

Lemma dict_set_fresh key v (d : pydict) :
  key ∉ dict_keys d -> dict_set key v d = d ++ [(key, v)].
Proof.
  induction d as [|[k w] rest IH]; intros Hnot; [done|]. simpl.
  destruct (String.eqb_spec key k) as [->|Hne].
  - exfalso. apply Hnot. by apply elem_of_cons; left.
  - rewrite IH; [done|]. intros Hin. apply Hnot. by apply elem_of_cons; right.
Qed.

Lemma add_params_fresh sig (params : pydict) :
  NoDup (dict_keys params ++ param_names sig) ->
  foldl add_param params sig
  = params ++ map (fun p => (p_name p, PDict (param_info p))) sig.
Proof.
  revert params. induction sig as [|q sig IH]; intros params Hnd; simpl.
  - by rewrite app_nil_r.
  - unfold add_param at 2. rewrite dict_set_fresh.
    + rewrite IH.
      * by rewrite <- app_assoc.
      * unfold dict_keys. rewrite map_app. simpl. rewrite <- app_assoc.
        exact Hnd.
    + apply NoDup_app in Hnd as (_ & Hdisj & _). intros Hin.
      apply (Hdisj _ Hin). by apply elem_of_cons; left.
Qed.

Section Parameters.
Context {World : Type}.
Implicit Types (func : Operation World).

(** X14. For a signature with distinct names, the [parameters] dict has one
    entry per declared parameter, in declaration order; its keys are the
    [expected_parameters] of the 422. *)
Theorem parameters_in_declaration_order func :
  NoDup (param_names (signature func)) ->
  _extract_param_info func
  = map (fun p => (p_name p, PDict (param_info p))) (signature func)
  /\ dict_keys (_extract_param_info func) = param_names (signature func).
Proof.
  intros Hnd. unfold _extract_param_info.
  rewrite add_params_fresh by done. simpl. split; [done|].
  unfold dict_keys, param_names. rewrite map_map. by apply map_ext.
Qed.
End Parameters.

(** X15. The info of a parameter has the keys [required], then [type] when
    the parameter is annotated, then [default] when it has a default, and no
    other; [type] is the [__name__] of the annotation when it has one and
    [str] of the annotation otherwise. *)
Theorem param_info_shape param :
  dict_keys (param_info param)
  = ["required"]
    ++ (if is_empty (p_annotation param) then [] else ["type"])
    ++ (if is_empty (p_default param) then [] else ["default"])
  /\ dict_get "type" (param_info param)
     = match p_annotation param with
       | Some annotation =>
           Some (PStr (match ann_name annotation with
                       | Some name => name
                       | None => ann_str annotation
                       end))
       | None => None
       end.
Proof.
  unfold param_info.
  destruct (p_annotation param) as [[[name|] rendering]|],
           (p_default param) as [d|];
    try destruct (json_serializable d); split; reflexivity.
Qed.

(** X16. [*args] and [**kwargs] are published as required, and yet no call
    is ever stopped for leaving them out. *)
Theorem var_parameter_required_never_missing sig p :
  NoDup (param_names sig) ->
  p ∈ sig -> is_var p = true -> p_default p = None ->
  dict_get "required" (param_info p) = Some (PBool true)
  /\ forall params positional, p_name p ∉ missing sig params positional.
Proof.
  intros Hnd Hp Hvar Hd. split.
  - by rewrite param_info_required, Hd.
  - intros params positional Hin. unfold missing, param_names in Hin.
    apply list_elem_of_fmap in Hin as (q & Hname & Hq).
    apply list_elem_of_filter in Hq as [Hkind Hq].
    assert (q = p) as ->.
    { clear Hkind. induction sig as [|a sig IH]; [by apply elem_of_nil in Hp|].
      simpl in Hnd. apply NoDup_cons in Hnd as [Ha Hnd].
      apply elem_of_cons in Hp as [->|Hp], Hq as [->|Hq]; try done.
      - exfalso. apply Ha. rewrite Hname. apply list_elem_of_fmap. by exists q.
      - exfalso. apply Ha. rewrite <- Hname. apply list_elem_of_fmap. by exists p.
      - by apply IH. }
    unfold is_var, is_positional, is_kind in *.
    destruct (p_kind p), positional; done.
Qed.

(** ** More on the description *)

Lemma lstrip_id t :
  (forall c t', t = String c t' -> isspace c = false) -> lstrip t = t.
Proof.
  destruct t as [|c t]; [done|]. intros Hhead. simpl.
  by rewrite (Hhead c t eq_refl).
Qed.

Lemma rstrip_id t :
  (forall t' c, t = t' +:+ str1 c -> isspace c = false) -> rstrip t = t.
Proof.
  induction t as [|a t IH]; [done|]. intros Hlast. simpl.
  rewrite IH.
  - destruct t; [|done]. by rewrite (Hlast "" a eq_refl).
  - intros t' c ->. apply (Hlast (String a t') c). by rewrite append_cons.
Qed.

Lemma strip_strip s : strip (strip s) = strip s.
Proof.
  destruct (strip_trimmed s) as (_ & Hhead & Hlast).
  unfold strip at 1. by rewrite (lstrip_id _ Hhead), (rstrip_id _ Hlast).
Qed.

Lemma append_length s t :
  String.length (s +:+ t) = (String.length s + String.length t)%nat.
Proof.
  induction s as [|c s IH]; [done|]. rewrite append_cons. simpl. by rewrite IH.
Qed.

(** The first paragraph has no blank-line boundary in it. *)
Lemma first_paragraph_unbroken doc p r :
  first_paragraph doc <> p +:+ blank_line +:+ r.
Proof.
  intros Heq.
  destruct (first_paragraph_spec doc) as [[Hfp Hnone]|[[rest Hrest] Hmin]].
  - apply (Hnone p r). by rewrite <- Hfp.
  - specialize (Hmin p (r +:+ blank_line +:+ rest)).
    rewrite Hrest, Heq in Hmin at 1.
    rewrite !append_assoc in Hmin. specialize (Hmin eq_refl).
    rewrite Heq, !append_length in Hmin. simpl in Hmin. lia.
Qed.

Section Paragraph.
Context {World : Type}.
Implicit Types (func : Operation World).

(** X17. The description is one trimmed paragraph that comes from the
    documentation: it has no blank-line boundary in it, [strip] leaves it
    as it is, and, when there is documentation, it is a piece of it. *)
Theorem description_one_trimmed_paragraph func :
  (forall p r, _extract_docstring func <> p +:+ blank_line +:+ r)
  /\ strip (_extract_docstring func) = _extract_docstring func
  /\ match getdoc func with
     | Some doc => exists l r, doc = l +:+ _extract_docstring func +:+ r
     | None => True
     end.
Proof.
  unfold _extract_docstring. destruct (getdoc func) as [doc|].
  2: { split; [|done]. by intros [|? ?] r. }
  destruct (String.eqb_spec doc "") as [->|_].
  { split; [by intros [|? ?] r|]. split; [done|]. by exists "", "". }
  rewrite split_hd.
  destruct (strip_trimmed (first_paragraph doc)) as ((l & r & Hfp & _) & _).
  split; [|split].
  - intros p r' Heq. apply (first_paragraph_unbroken doc (l +:+ p) (r' +:+ r)).
    rewrite Hfp at 1. rewrite Heq. by rewrite !append_assoc.
  - apply strip_strip.
  - destruct (first_paragraph_spec doc) as [[Hwhole _]|[[rest Hrest] _]].
    + exists l, r. by rewrite <- Hfp.
    + exists l, (r +:+ blank_line +:+ rest).
      rewrite Hrest at 1. rewrite Hfp at 1. by rewrite !append_assoc.
Qed.

(** X18. Documentation without a blank-line boundary is published whole,
    trimmed. *)
Theorem one_paragraph_doc_published_whole func doc :
  getdoc func = Some doc ->
  (forall p r, doc <> p +:+ blank_line +:+ r) ->
  _extract_docstring func = strip doc.
Proof.
  intros Hdoc Hnone. unfold _extract_docstring. rewrite Hdoc.
  destruct (String.eqb_spec doc "") as [->|_]; [done|].
  rewrite split_hd.
  destruct (first_paragraph_spec doc) as [[-> _]|[[rest Hrest] _]]; [done|].
  by destruct (Hnone _ _ Hrest).
Qed.
End Paragraph.

(** ** The startup script *)

Section StartupProperties.
Context {World : Type}.
Implicit Types (bpy : Blender World) (w : World).

End StartupProperties.


(** ** The further properties on the sample tools *)

Lemma no_boundary doc :
  first_paragraph doc = doc -> forall p r, doc <> p +:+ blank_line +:+ r.
Proof.
  intros Hwhole p r. rewrite <- Hwhole. apply first_paragraph_unbroken.
Qed.

Lemma opts_in_scale : opts_param ∈ signature scale.
Proof. apply list_elem_of_In. simpl. tauto. Defined.

(** [scale(target, factor=2, pivot=None, axes={0, 1}, *rest, **opts)] called
    with [{target: Cube, mode: 1}]: [mode] goes to [opts]. *)
Lemma arguments_reach_operation_witness :
  bind "scale" (signature scale) [("target", PStr "Cube"); ("mode", PInt 1)]
  = inr [("target", PStr "Cube"); ("factor", PInt 2); ("pivot", PNone);
         ("axes", PObject "set" "{0, 1}"); ("rest", PTuple []);
         ("opts", PDict [("mode", PInt 1)])]
  /\ (dict_get "mode"
        [("target", PStr "Cube"); ("factor", PInt 2); ("pivot", PNone);
         ("axes", PObject "set" "{0, 1}"); ("rest", PTuple []);
         ("opts", PDict [("mode", PInt 1)])] = Some (PInt 1)
      \/ exists kw extras,
          kw ∈ signature scale /\ p_kind kw = VAR_KEYWORD
          /\ dict_get (p_name kw)
               [("target", PStr "Cube"); ("factor", PInt 2); ("pivot", PNone);
                ("axes", PObject "set" "{0, 1}"); ("rest", PTuple []);
                ("opts", PDict [("mode", PInt 1)])] = Some (PDict extras)
          /\ dict_get "mode" extras = Some (PInt 1)).
Proof.
  split; [reflexivity|].
  apply (arguments_reach_operation "scale" (signature scale)
           [("target", PStr "Cube"); ("mode", PInt 1)] _ "mode" (PInt 1)
           scale_names_distinct);
    reflexivity.
Defined.

(** [scale] called with [{target: Cube}]: [factor] is 2. *)
Lemma omitted_parameter_gets_default_witness :
  bind "scale" (signature scale) [("target", PStr "Cube")]
  = inr [("target", PStr "Cube"); ("factor", PInt 2); ("pivot", PNone);
         ("axes", PObject "set" "{0, 1}"); ("rest", PTuple []);
         ("opts", PDict [])]
  /\ dict_get "factor"
    [("target", PStr "Cube"); ("factor", PInt 2); ("pivot", PNone);
     ("axes", PObject "set" "{0, 1}"); ("rest", PTuple []);
     ("opts", PDict [])] = Some (PInt 2).
Proof.
  split; [reflexivity|].
  apply (omitted_parameter_gets_default "scale" (signature scale)
           [("target", PStr "Cube")] _ factor_param (PInt 2)
           scale_names_distinct).
  - reflexivity.
  - apply list_elem_of_In. simpl. tauto.
  - reflexivity.
  - reflexivity.
  - apply (bool_decide_unpack _). vm_compute. exact I.
Defined.

Lemma rejected_request_leaves_host_witness :
  tool_map sample_app !! "nonexistent" = None
  /\ snd (invoke_tool sample_app "nonexistent" None tt) = tt.
Proof.
  split; [reflexivity|].
  apply (rejected_request_leaves_host sample_app "nonexistent" None tt).
  left. reflexivity.
Defined.


(** [quit_host()] *)
Lemma base_exception_propagates_witness :
  tool_map sample_app !! "quit_host" = Some quit_host
  /\ invoke_tool sample_app "quit_host" None tt
     = (Propagates (mkExc "SystemExit" "1" DerivesBaseExceptionOnly), tt).
Proof.
  split; [reflexivity|].
  apply (base_exception_propagates sample_app "quit_host" quit_host None tt []
           (mkExc "SystemExit" "1" DerivesBaseExceptionOnly) tt);
    reflexivity.
Defined.

(** [add(a, b)] called with [{a: 2, b: 3, c: 4}]. *)
Lemma unexpected_key_rejected_witness :
  ("c" ∉ param_names (signature add))
  /\ exists e,
      invoke_tool sample_app "add"
        (Some [("a", PInt 2); ("b", PInt 3); ("c", PInt 4)]) tt
      = (HTTPException 422
           (parameter_error "add" e ["a"; "b"] ["a"; "b"; "c"]), tt).
Proof.
  assert ("c" ∉ param_names (signature add)) as Hno
      by (apply (bool_decide_unpack _); vm_compute; exact I).
  split; [exact Hno|].
  apply (unexpected_key_rejected sample_app "add" add
           (Some [("a", PInt 2); ("b", PInt 3); ("c", PInt 4)]) tt "c").
  - reflexivity.
  - apply (bool_decide_unpack _). vm_compute. exact I.
  - exact Hno.
  - reflexivity.
Defined.

(** [add(a, b)] called with [{a: 2}]. *)
Lemma missing_parameter_rejected_witness :
  (plain "b" ∈ signature add)
  /\ exists e,
      invoke_tool sample_app "add" (Some [("a", PInt 2)]) tt
      = (HTTPException 422 (parameter_error "add" e ["a"; "b"] ["a"]), tt).
Proof.
  assert (plain "b" ∈ signature add) as Hin
      by (apply list_elem_of_In; simpl; tauto).
  split; [exact Hin|].
  apply (missing_parameter_rejected sample_app "add" add
           (Some [("a", PInt 2)]) tt (plain "b")).
  - reflexivity.
  - exact Hin.
  - reflexivity.
  - reflexivity.
  - apply (bool_decide_unpack _). vm_compute. exact I.
Defined.

(** [absolute(x, /)] called with [{x: -3}]. *)
Lemma positional_only_never_invocable_witness :
  tool_map tools_app !! "absolute" = Some absolute
  /\ exists e,
      invoke_tool tools_app "absolute" (Some [("x", PInt (-3))]) tt
      = (HTTPException 422 (parameter_error "absolute" e ["x"] ["x"]), tt).
Proof.
  split; [reflexivity|].
  apply (positional_only_never_invocable tools_app "absolute" absolute
           (mkParam "x" POSITIONAL_ONLY None None)).
  - reflexivity.
  - apply list_elem_of_In. simpl. tauto.
  - reflexivity.
  - reflexivity.
Defined.

Lemma parameters_in_declaration_order_witness :
  NoDup (param_names (signature scale))
  /\ dict_keys (_extract_param_info scale)
     = ["target"; "factor"; "pivot"; "axes"; "rest"; "opts"].
Proof.
  split; [exact scale_names_distinct|].
  exact (proj2 (parameters_in_declaration_order scale scale_names_distinct)).
Defined.

Lemma var_parameter_required_never_missing_witness :
  (opts_param ∈ signature scale)
  /\ dict_get "required" (param_info opts_param) = Some (PBool true)
  /\ ("opts" ∉ missing (signature scale) [] true).
Proof.
  split; [exact opts_in_scale|].
  destruct (var_parameter_required_never_missing (signature scale) opts_param
              scale_names_distinct opts_in_scale eq_refl eq_refl)
    as [Hreq Hmiss].
  split; [exact Hreq|]. exact (Hmiss [] true).
Defined.

(** The documentation of [render_still] is one line. *)
Lemma one_paragraph_doc_published_whole_witness :
  (forall p r, "Render one frame." <> p +:+ blank_line +:+ r)
  /\ _extract_docstring render_still = strip "Render one frame.".
Proof.
  assert (forall p r, "Render one frame." <> p +:+ blank_line +:+ r) as Hnone
      by (apply no_boundary; reflexivity).
  split; [exact Hnone|].
  exact (one_paragraph_doc_published_whole render_still "Render one frame."
           eq_refl Hnone).
Defined.

(** ** Calls that go through *)

(** A body binds when each of its keys names a parameter that takes
    keywords and it names every parameter that has no default, [*args] and
    [**kwargs] apart. *)
Lemma bind_well_formed qualname sig params :
  (forall key, key ∈ dict_keys params ->
               exists p, p ∈ sig /\ p_name p = key /\ accepts_keyword p = true) ->
  (forall p, p ∈ sig -> is_var p = false -> p_default p = None ->
             accepts_keyword p = true /\ p_name p ∈ dict_keys params) ->
  exists locals, bind qualname sig params = inr locals.
Proof.
  intros Hkeys Hreq. eexists. apply bind_inr. repeat split; [left|..].
  - destruct (unmatched sig params) as [|[k v] rest] eqn:Hun; [done|]. exfalso.
    assert ((k, v) ∈ unmatched sig params) as Hmem
        by (rewrite Hun; by apply elem_of_cons; left).
    unfold unmatched in Hmem. apply list_elem_of_filter in Hmem as [Hno Hin].
    destruct (Hkeys k) as (p & Hp & Hname & Hacc).
    { apply list_elem_of_fmap. by exists (k, v). }
    apply Is_true_true, negb_true_iff, not_true_iff_false in Hno. apply Hno.
    apply existsb_exists. exists p. split; [by apply list_elem_of_In|].
    unfold has_name. simpl. by rewrite Hacc, Hname, String.eqb_refl.
  - destruct (missing sig params true) as [|n rest] eqn:Hm; [done|]. exfalso.
    assert (n ∈ missing sig params true) as Hmem
        by (rewrite Hm; by apply elem_of_cons; left).
    unfold missing, param_names in Hmem.
    apply list_elem_of_fmap in Hmem as (p & _ & Hp).
    apply list_elem_of_filter in Hp as [Hcond Hp].
    apply Is_true_true, andb_true_iff in Hcond as [Hkind Hun].
    unfold unfilled in Hun. apply andb_true_iff in Hun as [Hgiven Hdef].
    destruct (Hreq p Hp) as [Hacc Hkey].
    + unfold is_var, is_positional, is_kind in *. by destruct (p_kind p).
    + by destruct (p_default p).
    + apply dict_mem_keys in Hkey. by rewrite Hacc, Hkey in Hgiven.
  - destruct (missing sig params false) as [|n rest] eqn:Hm; [done|]. exfalso.
    assert (n ∈ missing sig params false) as Hmem
        by (rewrite Hm; by apply elem_of_cons; left).
    unfold missing, param_names in Hmem.
    apply list_elem_of_fmap in Hmem as (p & _ & Hp).
    apply list_elem_of_filter in Hp as [Hcond Hp].
    apply Is_true_true, andb_true_iff in Hcond as [Hkind Hun].
    unfold unfilled in Hun. apply andb_true_iff in Hun as [Hgiven Hdef].
    destruct (Hreq p Hp) as [Hacc Hkey].
    + unfold is_var, is_kind in *. by destruct (p_kind p).
    + by destruct (p_default p).
    + apply dict_mem_keys in Hkey. by rewrite Hacc, Hkey in Hgiven.
Qed.

Section Accepted.
Context {World : Type}.
Implicit Types (app : App World) (func : Operation World) (w : World).
Implicit Types (tools : list (Operation World)) (body : option pydict).


(** X21. Of the operations registered under one name, the last one answers:
    the response to a request for that name is the response of an app that
    has that operation alone, whatever was registered before it. *)
Theorem later_registration_answers
        tools1 func tools2 title description version body w :
  __name__ func ∉ map __name__ tools2 ->
  invoke_tool (expose_tools (tools1 ++ func :: tools2) title description version)
              (__name__ func) body w
  = invoke_tool (expose_tools [func] title description version)
                (__name__ func) body w.
Proof.
  intros Hlast.
  rewrite (invoke_tool_registered _ _ func);
    [|by apply expose_tools_last_wins].
  rewrite (invoke_tool_registered _ _ func); [done|].
  apply (expose_tools_last_wins [] func []). apply not_elem_of_nil.
Qed.
End Accepted.


(** The two operations called [render]. *)
Lemma later_registration_answers_witness :
  ("render" ∉ map __name__ ([] : list (Operation unit)))
  /\ invoke_tool render_app "render" None tt
     = invoke_tool (expose_tools [render_animation] "MCP Server" "" "1.0.0")
                   "render" None tt.
Proof.
  assert ("render" ∉ map __name__ ([] : list (Operation unit))) as Hlast
      by apply not_elem_of_nil.
  split; [exact Hlast|].
  exact (later_registration_answers [render_still] render_animation []
           "MCP Server" "" "1.0.0" None tt Hlast).
Defined.

(** ** The introspector and the failures of the builtins *)

Lemma foldl_add_param_outcome_inl py e sig :
  foldl (add_param_outcome py) (inl e) sig = inl e.
Proof. induction sig as [|q sig IH]; [done|]. simpl. exact IH. Qed.

Lemma foldl_add_param_outcome_other py sig acc params name :
  foldl (add_param_outcome py) (inr acc) sig = inr params ->
  name ∉ param_names sig ->
  dict_get name params = dict_get name acc.
Proof.
  revert acc. induction sig as [|q sig IH]; intros acc Hrun Hnot.
  - by injection Hrun as <-.
  - simpl in Hrun. destruct (param_info_outcome py q) as [e|info].
    + by rewrite foldl_add_param_outcome_inl in Hrun.
    + rewrite (IH _ Hrun).
      * rewrite dict_get_set.
        destruct (String.eqb_spec name (p_name q)) as [->|Hne]; [|done].
        exfalso. apply Hnot. by apply elem_of_cons; left.
      * intros Hin. apply Hnot. by apply elem_of_cons; right.
Qed.

(** When the loop returns, every parameter was described, and the entry of
    a parameter is its [info]. *)
Lemma foldl_add_param_outcome_get py sig acc params param :
  foldl (add_param_outcome py) (inr acc) sig = inr params ->
  NoDup (param_names sig) -> param ∈ sig ->
  exists info,
    param_info_outcome py param = inr info
    /\ dict_get (p_name param) params = Some (PDict info).
Proof.
  revert acc. induction sig as [|q sig IH]; intros acc Hrun Hnd Hin.
  - by apply elem_of_nil in Hin.
  - simpl in Hnd. apply NoDup_cons in Hnd as [Hq Hnd]. simpl in Hrun.
    destruct (param_info_outcome py q) as [e|info] eqn:Hinfo.
    { by rewrite foldl_add_param_outcome_inl in Hrun. }
    apply elem_of_cons in Hin as [->|Hin].
    + exists info. split; [done|].
      rewrite (foldl_add_param_outcome_other _ _ _ _ _ Hrun Hq).
      by rewrite dict_get_set, String.eqb_refl.
    + by apply (IH _ Hrun).
Qed.

(** When the loop raises, the exception is that of one parameter. *)
Lemma foldl_add_param_outcome_raises py sig acc e :
  foldl (add_param_outcome py) (inr acc) sig = inl e ->
  exists p, p ∈ sig /\ param_info_outcome py p = inl e.
Proof.
  revert acc. induction sig as [|q sig IH]; intros acc Hrun; [done|].
  simpl in Hrun. destruct (param_info_outcome py q) as [e'|info] eqn:Hinfo.
  - rewrite foldl_add_param_outcome_inl in Hrun. injection Hrun as ->.
    exists q. split; [by apply elem_of_cons; left|done].
  - destruct (IH _ Hrun) as (p & Hp & He). exists p.
    split; [by apply elem_of_cons; right|done].
Qed.

(** The [info] of a parameter with a default, by what the builtins do. *)
Lemma param_info_outcome_default py param d :
  p_default param = Some d ->
  match json_dumps py d with
  | Dumped =>
      exists info, param_info_outcome py param = inr info
                   /\ dict_get "default" info = Some d
  | Refused _ =>
      match str py d with
      | inr s =>
          exists info, param_info_outcome py param = inr info
                       /\ dict_get "default" info = Some (PStr s)
      | inl e => param_info_outcome py param = inl e
      end
  | Failed e => param_info_outcome py param = inl e
  end.
Proof.
  intros Hd. unfold param_info_outcome. rewrite Hd.
  destruct (json_dumps py d) as [|e|e]; [| |done].
  - eexists. split; [done|]. by destruct (p_annotation param).
  - destruct (str py d) as [e'|s]; [done|].
    eexists. split; [done|]. by destruct (p_annotation param).
Qed.

Lemma param_info_outcome_raises py param e :
  param_info_outcome py param = inl e ->
  exists d, p_default param = Some d
            /\ (json_dumps py d = Failed e
                \/ exists e0, json_dumps py d = Refused e0 /\ str py d = inl e).
Proof.
  unfold param_info_outcome. destruct (p_default param) as [d|]; [|done].
  intros Hrun. exists d. split; [done|].
  destruct (json_dumps py d) as [|e0|e0]; [done| |].
  - right. exists e0. split; [done|]. destruct (str py d); congruence.
  - left. by injection Hrun as ->.
Qed.

(** What the introspector returns is what [param_info] says, for builtins
    that agree with the model. *)
Lemma param_info_outcome_returns py param info :
  agrees py -> param_info_outcome py param = inr info ->
  info = param_info param.
Proof.
  intros Hpy. unfold param_info_outcome, param_info.
  destruct (p_default param) as [d|]; [|by intros [= <-]].
  destruct (Hpy d) as [Hdumped Hrefused].
  destruct (json_dumps py d) as [|e|e]; [| |done].
  - intros [= <-]. by rewrite Hdumped.
  - destruct (str py d) as [e'|s]; [done|]. intros [= <-].
    by destruct (Hrefused e s eq_refl eq_refl) as [-> ->].
Qed.

Section IntrospectorOutcome.
Context {World : Type}.
Implicit Types (func : Operation World) (tools : list (Operation World)).

Lemma foldl_add_param_outcome_returns py sig acc params :
  agrees py ->
  foldl (add_param_outcome py) (inr acc) sig = inr params ->
  params = foldl add_param acc sig.
Proof.
  intros Hpy. revert acc. induction sig as [|q sig IH]; intros acc Hrun.
  - by injection Hrun as <-.
  - simpl in Hrun. destruct (param_info_outcome py q) as [e|info] eqn:Hinfo.
    + by rewrite foldl_add_param_outcome_inl in Hrun.
    + rewrite (param_info_outcome_returns _ _ _ Hpy Hinfo) in Hrun.
      by apply IH.
Qed.

(** A dict the introspector returns is [_extract_param_info func]. *)
Lemma extract_param_info_outcome_returns py func params :
  agrees py ->
  _extract_param_info_outcome py func = inr params ->
  params = _extract_param_info func.
Proof. intros Hpy. by apply foldl_add_param_outcome_returns. Qed.

Lemma foldl_register_outcome_inl py e tools :
  foldl (register_outcome py) (inl e) tools = inl e.
Proof. induction tools as [|func tools IH]; [done|]. simpl. exact IH. Qed.

Lemma foldl_register_outcome_returns py tools reg reg' :
  agrees py ->
  foldl (register_outcome py) (inr reg) tools = inr reg' ->
  reg' = foldl register reg tools.
Proof.
  intros Hpy. revert reg. induction tools as [|func tools IH]; intros reg Hrun.
  - by injection Hrun as <-.
  - simpl in Hrun.
    destruct (_extract_param_info_outcome py func) as [e|params] eqn:Hinfo.
    + by rewrite foldl_register_outcome_inl in Hrun.
    + rewrite (extract_param_info_outcome_returns _ _ _ Hpy Hinfo) in Hrun.
      by apply IH.
Qed.

(** An app that [expose_tools] returns is [expose_tools tools ...]. *)
Lemma expose_tools_outcome_returns py tools title description version app :
  agrees py ->
  expose_tools_outcome py tools title description version = inr app ->
  app = expose_tools tools title description version.
Proof.
  intros Hpy. unfold expose_tools_outcome, expose_tools.
  destruct (foldl (register_outcome py) (inr (∅, [])) tools) as [e|reg] eqn:Hrun;
    [done|].
  intros [= <-]. by rewrite (foldl_register_outcome_returns _ _ _ _ Hpy Hrun).
Qed.

End IntrospectorOutcome.

(** *** The builtins of CPython agree with the model *)

Lemma first_refusal_Dumped results :
  first_refusal results = Dumped -> Forall (fun r => r = Dumped) results.
Proof.
  induction results as [|r results IH]; [constructor|].
  destruct r; simpl; [|done..]. intros Hrest. constructor; [done|by apply IH].
Qed.

Lemma first_refusal_Refused results e :
  first_refusal results = Refused e -> Refused e ∈ results.
Proof.
  induction results as [|r results IH]; [done|].
  destruct r; simpl; intros Heq.
  - apply elem_of_cons. right. by apply IH.
  - rewrite Heq. by apply elem_of_cons; left.
  - done.
Qed.

Lemma first_error_None errors :
  first_error errors = None -> Forall (fun x => x = None) errors.
Proof.
  induction errors as [|[e|] errors IH]; [constructor|done|].
  simpl. intros Hrest. constructor; [done|by apply IH].
Qed.

Lemma cpython_dumps_Dumped lim depth v :
  cpython_dumps lim depth v = Dumped -> json_serializable v = true.
Proof.
  revert v. induction depth as [|k IH]; intros v; destruct v; simpl; try done.
  - intros Hall. apply first_refusal_Dumped in Hall.
    apply forallb_forall. intros x Hx. apply IH.
    rewrite Forall_forall in Hall. apply Hall.
    apply list_elem_of_fmap. exists x. by split; [|apply list_elem_of_In].
  - intros Hall. apply first_refusal_Dumped in Hall.
    apply forallb_forall. intros x Hx. apply IH.
    rewrite Forall_forall in Hall. apply Hall.
    apply list_elem_of_fmap. exists x. by split; [|apply list_elem_of_In].
  - intros Hall. apply first_refusal_Dumped in Hall.
    apply forallb_forall. intros [key x] Hx. apply IH.
    rewrite Forall_forall in Hall. apply Hall.
    apply list_elem_of_fmap. exists (key, x). by split; [|apply list_elem_of_In].
Qed.

(** A refusal comes from an integer without decimal text or from a value
    the encoder does not know. *)
Lemma cpython_dumps_Refused lim depth v e :
  cpython_dumps lim depth v = Refused e ->
  has_long_int lim v = true \/ json_serializable v = false.
Proof.
  revert v. induction depth as [|k IH]; intros v; destruct v; simpl; try done;
    try (destruct (int_too_long lim n); [by left|done]);
    try (by right).
  - intros Hone. apply first_refusal_Refused in Hone.
    apply list_elem_of_fmap in Hone as (x & Heq & Hx).
    apply list_elem_of_In in Hx.
    destruct (IH x (eq_sym Heq)) as [Hlong|Hno].
    + left. apply existsb_exists. by exists x.
    + right. apply not_true_iff_false. intros Hall.
      rewrite forallb_forall in Hall. rewrite (Hall x Hx) in Hno. done.
  - intros Hone. apply first_refusal_Refused in Hone.
    apply list_elem_of_fmap in Hone as (x & Heq & Hx).
    apply list_elem_of_In in Hx.
    destruct (IH x (eq_sym Heq)) as [Hlong|Hno].
    + left. apply existsb_exists. by exists x.
    + right. apply not_true_iff_false. intros Hall.
      rewrite forallb_forall in Hall. rewrite (Hall x Hx) in Hno. done.
  - intros Hone. apply first_refusal_Refused in Hone.
    apply list_elem_of_fmap in Hone as ([key x] & Heq & Hx).
    apply list_elem_of_In in Hx.
    destruct (IH x (eq_sym Heq)) as [Hlong|Hno].
    + left. apply existsb_exists. by exists (key, x).
    + right. apply not_true_iff_false. intros Hall.
      rewrite forallb_forall in Hall. specialize (Hall (key, x) Hx).
      simpl in Hall. by rewrite Hall in Hno.
Qed.

(** A value [repr] renders has no integer without decimal text. *)
Lemma cpython_repr_error_None lim depth v :
  cpython_repr_error lim depth v = None -> has_long_int lim v = false.
Proof.
  revert v. induction depth as [|k IH]; intros v; [done|].
  destruct v; simpl; try done.
  - by destruct (int_too_long lim n).
  - intros Hall. apply first_error_None in Hall.
    apply not_true_iff_false. intros Hex.
    apply existsb_exists in Hex as (x & Hx & Hlong).
    rewrite Forall_forall in Hall. rewrite (IH x) in Hlong; [done|].
    apply Hall. apply list_elem_of_fmap. exists x.
    by split; [|apply list_elem_of_In].
  - intros Hall. apply first_error_None in Hall.
    apply not_true_iff_false. intros Hex.
    apply existsb_exists in Hex as (x & Hx & Hlong).
    rewrite Forall_forall in Hall. rewrite (IH x) in Hlong; [done|].
    apply Hall. apply list_elem_of_fmap. exists x.
    by split; [|apply list_elem_of_In].
  - intros Hall. apply first_error_None in Hall.
    apply not_true_iff_false. intros Hex.
    apply existsb_exists in Hex as ([key x] & Hx & Hlong). simpl in Hlong.
    rewrite Forall_forall in Hall. rewrite (IH x) in Hlong; [done|].
    apply Hall. apply list_elem_of_In. apply in_flat_map.
    exists (key, x). split; [done|]. simpl. tauto.
Qed.

Lemma cpython_agrees lim : agrees (cpython lim).
Proof.
  intros d. split.
  - apply cpython_dumps_Dumped.
  - simpl. intros e s Hrefused Hstr.
    assert (s = py_str d /\ has_long_int lim d = false) as [-> Hshort].
    { unfold cpython_str in Hstr. destruct d; try done; try discriminate Hrefused;
        destruct (cpython_repr_error lim (repr_depth lim) _) eqn:Hrepr;
        try done; injection Hstr as <-;
        (split; [done|by apply (cpython_repr_error_None _ _ _ Hrepr)]). }
    split; [|done].
    destruct (cpython_dumps_Refused _ _ _ _ Hrefused) as [Hlong|Hno]; [|done].
    by rewrite Hlong in Hshort.
Qed.

(** *** The introspector on [scale] and on [pad] *)


(** An integer at least a power of ten with as many zeros as the limit has
    digits has no decimal text. *)
Lemma int_too_long_power lim k :
  (0 < int_max_str_digits lim)%nat ->
  Z.of_nat (int_max_str_digits lim) <= k ->
  int_too_long lim (10 ^ k) = true.
Proof.
  intros Hpos Hle. unfold int_too_long.
  destruct (int_max_str_digits lim) as [|d] eqn:Hd; [lia|].
  apply Z.leb_le. rewrite Z.abs_eq by (apply Z.pow_nonneg; lia).
  apply Z.pow_le_mono_r; lia.
Qed.

Lemma default_limit_reached : int_too_long default_limits (10 ^ 5000) = true.
Proof.
  apply int_too_long_power.
  - unfold default_limits, int_max_str_digits. apply Nat.ltb_lt. reflexivity.
  - apply Z.leb_le. reflexivity.
Qed.


(** ** The discovery endpoint and the shared defaults *)

Lemma dict_set_assoc_set key v (d : pydict) :
  dict_set key v d = assoc_set key v d.
Proof.
  induction d as [|[k w] rest IH]; [done|]. simpl. by rewrite IH.
Qed.

Lemma map_assoc_set {V W : Type} (g : V -> W) key v (d : list (string * V)) :
  map (fun entry => (fst entry, g (snd entry))) (assoc_set key v d)
  = assoc_set key (g v) (map (fun entry => (fst entry, g (snd entry))) d).
Proof.
  induction d as [|[k w] rest IH]; [done|]. simpl.
  destruct (String.eqb key k); simpl; [done|]. by rewrite IH.
Qed.

(** In the store it was built in, the info of a parameter reads as
    [param_info] says. *)
Lemma s_param_info_render σ param :
  render_info σ (s_param_info σ param) = param_info (snapshot σ param).
Proof.
  unfold render_info, s_param_info, param_info, snapshot. simpl.
  destruct (sp_annotation param) as [annotation|],
           (sp_default param) as [o|]; simpl; try done;
    destruct (json_serializable (deref σ o)); reflexivity.
Qed.

Lemma s_extract_param_info_render_from σ sig acc :
  map (fun entry => (fst entry, PDict (render_info σ (snd entry))))
      (foldl (fun params param =>
                assoc_set (sp_name param) (s_param_info σ param) params)
             acc sig)
  = foldl add_param
          (map (fun entry => (fst entry, PDict (render_info σ (snd entry)))) acc)
          (map (snapshot σ) sig).
Proof.
  revert acc. induction sig as [|q sig IH]; intros acc; [done|]. simpl.
  rewrite IH. f_equal. unfold add_param.
  rewrite (map_assoc_set (fun info => PDict (render_info σ info))).
  by rewrite s_param_info_render, dict_set_assoc_set.
Qed.

(** In the store it was built in, a descriptor reads as [descriptor] says. *)
Lemma s_descriptor_render σ func :
  render σ (s_descriptor σ func) = descriptor (as_operation σ [] func).
Proof.
  unfold render, descriptor, s_descriptor. simpl.
  unfold s_extract_param_info at 1.
  by rewrite s_extract_param_info_render_from.
Qed.

(** What is read of an object depends on the store at its address only. *)
Lemma render_info_agree σ σ' info :
  (forall l, l ∈ info_refs info -> σ' !! l = σ !! l) ->
  render_info σ' info = render_info σ info.
Proof.
  unfold render_info, info_refs.
  induction info as [|[k o] info IH]; intros Hsame; [done|]. simpl.
  rewrite IH.
  - destruct o as [v|l]; [done|]. simpl. rewrite Hsame; [done|].
    simpl. by apply elem_of_cons; left.
  - intros l Hl. apply Hsame. simpl. apply elem_of_app. by right.
Qed.

Lemma render_parameters_agree σ σ' (params : list (string * list (string * obj))) :
  (forall l, l ∈ flat_map (fun entry => info_refs (snd entry)) params ->
             σ' !! l = σ !! l) ->
  map (fun entry => (fst entry, PDict (render_info σ' (snd entry)))) params
  = map (fun entry => (fst entry, PDict (render_info σ (snd entry)))) params.
Proof.
  induction params as [|[k info] rest IH]; intros Hsame; [done|]. simpl.
  rewrite IH.
  - rewrite (render_info_agree σ σ' info); [done|].
    intros l Hl. apply Hsame. simpl. apply elem_of_app. by left.
  - intros l Hl. apply Hsame. simpl. apply elem_of_app. by right.
Qed.

Lemma render_agree σ σ' desc :
  (forall l, l ∈ descriptor_refs desc -> σ' !! l = σ !! l) ->
  render σ' desc = render σ desc.
Proof.
  intros Hsame. unfold render.
  by rewrite (render_parameters_agree σ σ' (sd_parameters desc) Hsame).
Qed.

Lemma render_all_agree σ σ' (descs : list SDescriptor) :
  (forall l, l ∈ flat_map descriptor_refs descs -> σ' !! l = σ !! l) ->
  map (render σ') descs = map (render σ) descs.
Proof.
  induction descs as [|desc rest IH]; intros Hsame; [done|]. simpl.
  rewrite IH.
  - rewrite (render_agree σ σ' desc); [done|].
    intros l Hl. apply Hsame. simpl. apply elem_of_app. by left.
  - intros l Hl. apply Hsame. simpl. apply elem_of_app. by right.
Qed.

Lemma s_list_tools_agree σ σ' app :
  (forall l, l ∈ registry_refs app -> σ' !! l = σ !! l) ->
  s_list_tools σ' app = s_list_tools σ app.
Proof.
  intros Hsame. unfold s_list_tools.
  by rewrite (render_all_agree σ σ' (s_tool_info app) Hsame).
Qed.

Lemma s_serve_registry req app σ : fst (snd (s_serve req (app, σ))) = app.
Proof.
  destruct req as [| |tool_name body]; simpl; [done..|].
  by destruct (s_invoke_tool app tool_name body σ).
Qed.

Lemma s_serve_all_registry reqs app σ :
  fst (snd (s_serve_all reqs (app, σ))) = app.
Proof.
  revert σ. induction reqs as [|req reqs IH]; intros σ; [done|].
  cbn [s_serve_all].
  pose proof (s_serve_registry req app σ) as Hone.
  destruct (s_serve req (app, σ)) as [resp [app1 σ1]]. simpl in Hone.
  subst app1. specialize (IH σ1).
  destruct (s_serve_all reqs (app, σ1)) as [resps st2]. exact IH.
Qed.

(** C9, amended. [list_tools] returns, whatever the registry and the store,
    and changes neither: two calls in a row give the same payload.  No
    request to any endpoint changes [tool_map] or [tool_info].  And after
    any requests [list_tools] gives the payload it gave before them, provided
    the store is as it was at the addresses the descriptors refer to, the
    default objects of the operations. *)
Theorem list_tools_reads_registry app σ :
  s_serve GET_list_tools (app, σ) = (Returns (s_list_tools σ app), (app, σ))
  /\ s_serve_all [GET_list_tools; GET_list_tools] (app, σ)
     = ([Returns (s_list_tools σ app); Returns (s_list_tools σ app)], (app, σ))
  /\ forall reqs,
      fst (snd (s_serve_all reqs (app, σ))) = app
      /\ ((forall l, l ∈ registry_refs app ->
                     snd (snd (s_serve_all reqs (app, σ))) !! l = σ !! l) ->
          fst (s_serve GET_list_tools (snd (s_serve_all reqs (app, σ))))
          = fst (s_serve GET_list_tools (app, σ))).
Proof.
  split; [done|]. split; [done|]. intros reqs.
  pose proof (s_serve_all_registry reqs app σ) as Hreg.
  destruct (s_serve_all reqs (app, σ)) as [resps [app' σ']]. simpl in *.
  subst app'. split; [done|]. intros Hsame.
  by rewrite (s_list_tools_agree σ σ' app Hsame).
Qed.

(** C9 as stated fails on [remember(item, seen=[])]: the descriptor holds
    the list that is the default of [seen]; [remember] called with
    [{item: 1}] appends to that list; [list_tools] shows the default [[]]
    before the call and [[1]] after it. *)
Lemma list_tools_pure_read_counterexample :
  fst (s_serve_all [GET_list_tools;
                    POST_invoke "remember" (Some [("item", PInt 1)]);
                    GET_list_tools] (remember_app, fresh_store))
  = [Returns
       (PDict [("tools",
                PList [PDict [("name", PStr "remember");
                              ("description", PStr "");
                              ("parameters",
                               PDict [("item", PDict [("required", PBool true)]);
                                      ("seen", PDict [("required", PBool false);
                                                      ("default", PList [])])])]]);
               ("count", PInt 1)]);
     Returns (PDict [("success", PBool true);
                     ("tool", PStr "remember");
                     ("result", PInt 1)]);
     Returns
       (PDict [("tools",
                PList [PDict [("name", PStr "remember");
                              ("description", PStr "");
                              ("parameters",
                               PDict [("item", PDict [("required", PBool true)]);
                                      ("seen", PDict [("required", PBool false);
                                                      ("default", PList [PInt 1])])])]]);
               ("count", PInt 1)])]
  /\ s_list_tools (snd (snd (s_serve_all
                               [POST_invoke "remember" (Some [("item", PInt 1)])]
                               (remember_app, fresh_store)))) remember_app
     <> s_list_tools fresh_store remember_app.
Proof.
  split; [vm_compute; reflexivity|].
  vm_compute. intros Heq. discriminate Heq.
Qed.

(** *** The shared registry in the store it was built in *)

Lemma foldl_s_register_info σ reg tools :
  snd (foldl (s_register σ) reg tools) = snd reg ++ map (s_descriptor σ) tools.
Proof.
  revert reg. induction tools as [|func tools IH]; intros reg; simpl.
  - by rewrite app_nil_r.
  - rewrite IH. simpl. by rewrite <- app_assoc.
Qed.

(** Read in the store in which [expose_tools] ran, the shared registry gives
    the payload of [list_tools] on the operations as they were then. *)
Lemma s_list_tools_at_registration σ tools title description version :
  s_list_tools σ (s_expose_tools σ tools title description version)
  = list_tools (expose_tools (map (as_operation σ []) tools)
                             title description version).
Proof.
  unfold s_list_tools, list_tools, s_expose_tools. cbn [s_tool_info].
  rewrite expose_tools_info, foldl_s_register_info. simpl.
  rewrite !length_map, !map_map.
  rewrite (map_ext (fun func => render σ (s_descriptor σ func))
                   (fun func => descriptor (as_operation σ [] func)));
    [done|].
  intros func. apply s_descriptor_render.
Qed.
